(** * WA heavy-trailer licence and stamp-duty calculator

    Shallow embedding of [calculate] (src/App.tsx and the earlier
    single-file revision of the same component) over IEEE-754 binary64
    numbers, the only numeric type of the source language. *)

From Stdlib Require Import ZArith NArith Bool Lia String Ascii List.
From Stdlib Require Import Floats.SpecFloat.

Local Open Scope Z_scope.

(** ** The [number] type of the source: IEEE-754 binary64

    [spec_float] is the Standard Library's executable specification of
    binary floating point; binary64 is precision 53, [emax] 1024.  The
    arithmetic operators of the source are the correctly rounded
    (nearest, ties to even) operations. *)

Module Number.

Definition prec : Z := 53.
Definition emax : Z := 1024.

Definition number : Type := spec_float.

Definition NaN : number := S754_nan.
Definition Infinity : number := S754_infinity false.

Definition mul (x y : number) : number := SFmul prec emax x y.
Definition add (x y : number) : number := SFadd prec emax x y.
Definition sub (x y : number) : number := SFsub prec emax x y.
Definition div (x y : number) : number := SFdiv prec emax x y.
Definition neg (x : number) : number := SFopp x.

(** Comparison operators of the source language: every comparison with
    [NaN] is false, and the two zeros compare equal. *)
Definition ltb (x y : number) : bool := SFltb x y.
Definition leb (x y : number) : bool := SFleb x y.
Definition eqb (x y : number) : bool := SFeqb x y.

(** An integer literal (exact below 2^53, correctly rounded above). *)
Definition of_Z (n : Z) : number := binary_normalize prec emax n 0 false.

(** A decimal literal [n / 10^k]: the literal denotes the binary64
    nearest to the decimal value, which is what the correctly rounded
    quotient of the two exactly represented integers gives. *)
Definition dec (n : Z) (k : nat) : number :=
  div (of_Z n) (of_Z (10 ^ Z.of_nat k)).

(** [Math.round]: the integral number closest to [x], ties going to
    +Infinity; [NaN], the infinities and the zeros are returned as they
    are, and a negative [x] that rounds to zero gives [-0]. *)
Definition Math_round (x : number) : number :=
  match x with
  | S754_finite s m e =>
      if 0 <=? e then x
      else
        let d := - e in
        binary_normalize prec emax
          (Z.shiftr (cond_Zopp s (Zpos m) + Z.shiftl 1 (d - 1)) d) 0 s
  | _ => x
  end.

(** [Math.min] of two numbers: [NaN] if either is [NaN]; [-0] is
    smaller than [+0]. *)
Definition Math_min (x y : number) : number :=
  match SFcompare x y with
  | None => NaN
  | Some Lt => x
  | Some Gt => y
  | Some Eq =>
      match x, y with
      | S754_zero sx, S754_zero sy => S754_zero (sx || sy)
      | _, _ => x
      end
  end.

(** [Math.abs]. *)
Definition Math_abs (x : number) : number := SFabs x.

End Number.

Export Number.

Declare Scope number_scope.
Delimit Scope number_scope with num.
Bind Scope number_scope with number.
Infix "*" := mul : number_scope.
Infix "+" := add : number_scope.
Infix "-" := sub : number_scope.
Infix "/" := div : number_scope.

(** ** Types shared by both source files *)

Variant InspectionType := none | initial | reinspection.

Record CalcInput := {
  priceExGst : number;
  axles : number;
  includeGstInDuty : bool;
  applyDutyCap : bool;
  firstTimeLicensing : bool;
  includeInsuranceLines : bool;
  inspectionType : InspectionType
}.

Record CalcOutput := {
  gst : number;
  dutiable : number;
  duty : number;
  licenceFee : number;
  insuranceBase : number;
  insuranceGst : number;
  insuranceDuty : number;
  recordingFee : number;
  plateFee : number;
  inspectionFee : number;
  roadRegoSubtotal : number;
  totalOnRoad : number
}.

(** The type of [DEFAULTS], the rate configuration. *)
Module Cfg.
Record t := {
  gstRate : number;
  dutyRate : number;
  dutyCap : number;
  licencePerAxle : number;
  recordingFee : number;
  plateFee : number;
  insuranceBase : number;
  insuranceGstRate : number;
  insuranceDutyRate : number;
  inspectionInitial : number;
  inspectionReinspection : number
}.
End Cfg.

(** The amounts in cents bound by the [const] declarations of
    [calculate], before the [return] converts them to dollars. *)
Record Cents := {
  c_P : number;
  c_gst : number;
  c_dutiable : number;
  c_dutyRaw : number;
  c_dutyCapCents : number;
  c_duty : number;
  c_licenceFee : number;
  c_insuranceBase : number;
  c_insuranceGst : number;
  c_insuranceDuty : number;
  c_recordingFee : number;
  c_plateFee : number;
  c_inspectionFee : number;
  c_roadRegoSubtotal : number;
  c_totalOnRoad : number
}.

(** ** src/App.tsx *)

Module App.

Definition DEFAULTS : Cfg.t := {|
  Cfg.gstRate := dec 10 2;
  Cfg.dutyRate := dec 3 2;
  Cfg.dutyCap := of_Z 12000;
  Cfg.licencePerAxle := of_Z 572;
  Cfg.recordingFee := dec 1045 2;
  Cfg.plateFee := dec 320 1;
  Cfg.insuranceBase := dec 1459 2;
  Cfg.insuranceGstRate := dec 10 2;
  Cfg.insuranceDutyRate := dec 11 2;
  Cfg.inspectionInitial := dec 2840 1;
  Cfg.inspectionReinspection := dec 1720 1
|}.

Definition toCents (aud : number) : number := Math_round (aud * of_Z 100).
Definition fromCents (cents : number) : number := (cents / of_Z 100)%num.

(** Lines 54-79: the [const] declarations. *)
Definition consts (input : CalcInput) (cfg : Cfg.t) : Cents :=
  let P := toCents (priceExGst input) in
  let gst :=
    if includeGstInDuty input then Math_round (P * Cfg.gstRate cfg)
    else of_Z 0 in
  let dutiable := (P + gst)%num in
  let dutyRaw := Math_round (dutiable * Cfg.dutyRate cfg) in
  let dutyCapCents := toCents (Cfg.dutyCap cfg) in
  let duty :=
    if applyDutyCap input then Math_min dutyRaw dutyCapCents else dutyRaw in
  let licenceFee := toCents (Cfg.licencePerAxle cfg * axles input) in
  let insuranceBase :=
    if includeInsuranceLines input then toCents (Cfg.insuranceBase cfg)
    else of_Z 0 in
  let insuranceGst :=
    if includeInsuranceLines input
    then Math_round (insuranceBase * Cfg.insuranceGstRate cfg)
    else of_Z 0 in
  let insuranceDuty :=
    if includeInsuranceLines input
    then Math_round (insuranceBase * Cfg.insuranceDutyRate cfg)
    else of_Z 0 in
  let recordingFee :=
    if firstTimeLicensing input then toCents (Cfg.recordingFee cfg)
    else of_Z 0 in
  let plateFee :=
    if firstTimeLicensing input then toCents (Cfg.plateFee cfg)
    else of_Z 0 in
  let inspectionFee :=
    match inspectionType input with
    | initial => toCents (Cfg.inspectionInitial cfg)
    | reinspection => toCents (Cfg.inspectionReinspection cfg)
    | none => of_Z 0
    end in
  let roadRegoSubtotal :=
    (licenceFee + insuranceBase + insuranceGst + insuranceDuty
       + recordingFee + plateFee + inspectionFee)%num in
  let totalOnRoad := (roadRegoSubtotal + duty)%num in
  {| c_P := P; c_gst := gst; c_dutiable := dutiable; c_dutyRaw := dutyRaw;
     c_dutyCapCents := dutyCapCents; c_duty := duty;
     c_licenceFee := licenceFee; c_insuranceBase := insuranceBase;
     c_insuranceGst := insuranceGst; c_insuranceDuty := insuranceDuty;
     c_recordingFee := recordingFee; c_plateFee := plateFee;
     c_inspectionFee := inspectionFee;
     c_roadRegoSubtotal := roadRegoSubtotal;
     c_totalOnRoad := totalOnRoad |}.

(** Lines 53 and 81-94: the default parameter [cfg = DEFAULTS] and the
    returned record.  [None] is a call without the second argument. *)
Definition cfg_or_default (cfg : option Cfg.t) : Cfg.t :=
  match cfg with Some cfg => cfg | None => DEFAULTS end.

Definition calculate (input : CalcInput) (cfg : option Cfg.t) : CalcOutput :=
  let c := consts input (cfg_or_default cfg) in
  {| gst := fromCents (c_gst c);
     dutiable := fromCents (c_dutiable c);
     duty := fromCents (c_duty c);
     licenceFee := fromCents (c_licenceFee c);
     insuranceBase := fromCents (c_insuranceBase c);
     insuranceGst := fromCents (c_insuranceGst c);
     insuranceDuty := fromCents (c_insuranceDuty c);
     recordingFee := fromCents (c_recordingFee c);
     plateFee := fromCents (c_plateFee c);
     inspectionFee := fromCents (c_inspectionFee c);
     roadRegoSubtotal := fromCents (c_roadRegoSubtotal c);
     totalOnRoad := fromCents (c_totalOnRoad c) |}.

End App.

(** ** The earlier single-file revision (src/unnamed/part_000) *)

Module Mvp.

Definition DEFAULTS : Cfg.t := {|
  Cfg.gstRate := dec 10 2;
  Cfg.dutyRate := dec 3 2;
  Cfg.dutyCap := of_Z 12000;
  Cfg.licencePerAxle := of_Z 572;
  Cfg.recordingFee := dec 1045 2;
  Cfg.plateFee := dec 320 1;
  Cfg.insuranceBase := dec 1459 2;
  Cfg.insuranceGstRate := dec 10 2;
  Cfg.insuranceDutyRate := dec 11 2;
  Cfg.inspectionInitial := dec 2840 1;
  Cfg.inspectionReinspection := dec 1720 1
|}.

Definition toCents (aud : number) : number := Math_round (aud * of_Z 100).
Definition fromCents (cents : number) : number := (cents / of_Z 100)%num.

(** Lines 62-85: the [const] declarations. *)
Definition consts (input : CalcInput) (cfg : Cfg.t) : Cents :=
  let P := toCents (priceExGst input) in
  let gst :=
    if includeGstInDuty input then Math_round (P * Cfg.gstRate cfg)
    else of_Z 0 in
  let dutiable := (P + gst)%num in
  let dutyRaw := Math_round (dutiable * Cfg.dutyRate cfg) in
  let dutyCapCents := toCents (Cfg.dutyCap cfg) in
  let duty :=
    if applyDutyCap input then Math_min dutyRaw dutyCapCents else dutyRaw in
  let licenceFee := toCents (Cfg.licencePerAxle cfg * axles input) in
  let insuranceBase :=
    if includeInsuranceLines input then toCents (Cfg.insuranceBase cfg)
    else of_Z 0 in
  let insuranceGst :=
    if includeInsuranceLines input
    then Math_round (insuranceBase * Cfg.insuranceGstRate cfg)
    else of_Z 0 in
  let insuranceDuty :=
    if includeInsuranceLines input
    then Math_round (insuranceBase * Cfg.insuranceDutyRate cfg)
    else of_Z 0 in
  let recordingFee :=
    if firstTimeLicensing input then toCents (Cfg.recordingFee cfg)
    else of_Z 0 in
  let plateFee :=
    if firstTimeLicensing input then toCents (Cfg.plateFee cfg)
    else of_Z 0 in
  let inspectionFee :=
    match inspectionType input with
    | initial => toCents (Cfg.inspectionInitial cfg)
    | reinspection => toCents (Cfg.inspectionReinspection cfg)
    | none => of_Z 0
    end in
  let roadRegoSubtotal :=
    (licenceFee + insuranceBase + insuranceGst + insuranceDuty
       + recordingFee + plateFee + inspectionFee)%num in
  let totalOnRoad := (roadRegoSubtotal + duty)%num in
  {| c_P := P; c_gst := gst; c_dutiable := dutiable; c_dutyRaw := dutyRaw;
     c_dutyCapCents := dutyCapCents; c_duty := duty;
     c_licenceFee := licenceFee; c_insuranceBase := insuranceBase;
     c_insuranceGst := insuranceGst; c_insuranceDuty := insuranceDuty;
     c_recordingFee := recordingFee; c_plateFee := plateFee;
     c_inspectionFee := inspectionFee;
     c_roadRegoSubtotal := roadRegoSubtotal;
     c_totalOnRoad := totalOnRoad |}.

(** Lines 61 and 87-100: the default parameter [cfg = DEFAULTS] and the
    returned record.  [None] is a call without the second argument. *)
Definition cfg_or_default (cfg : option Cfg.t) : Cfg.t :=
  match cfg with Some cfg => cfg | None => DEFAULTS end.

Definition calculate (input : CalcInput) (cfg : option Cfg.t) : CalcOutput :=
  let c := consts input (cfg_or_default cfg) in
  {| gst := fromCents (c_gst c);
     dutiable := fromCents (c_dutiable c);
     duty := fromCents (c_duty c);
     licenceFee := fromCents (c_licenceFee c);
     insuranceBase := fromCents (c_insuranceBase c);
     insuranceGst := fromCents (c_insuranceGst c);
     insuranceDuty := fromCents (c_insuranceDuty c);
     recordingFee := fromCents (c_recordingFee c);
     plateFee := fromCents (c_plateFee c);
     inspectionFee := fromCents (c_inspectionFee c);
     roadRegoSubtotal := fromCents (c_roadRegoSubtotal c);
     totalOnRoad := fromCents (c_totalOnRoad c) |}.

(** [approx] of [runSelfTests] (line 105). *)
Definition approx (a b : number) : bool := ltb (Math_abs (a - b)) (dec 1 2).

End Mvp.


(** ** Scenarios of the self tests *)

Definition tc1 : CalcInput := {|
  priceExGst := of_Z 75000; axles := of_Z 3; includeGstInDuty := true;
  applyDutyCap := true; firstTimeLicensing := true;
  includeInsuranceLines := false; inspectionType := none |}.

Definition tc3 : CalcInput := {|
  priceExGst := of_Z 1000000; axles := of_Z 1; includeGstInDuty := true;
  applyDutyCap := true; firstTimeLicensing := true;
  includeInsuranceLines := false; inspectionType := none |}.

Definition tc8 : CalcInput := {|
  priceExGst := of_Z 0; axles := of_Z 3; includeGstInDuty := true;
  applyDutyCap := true; firstTimeLicensing := true;
  includeInsuranceLines := true; inspectionType := initial |}.

(** The remaining inputs of [runSelfTests]. *)
Definition tc2 : CalcInput := {|
  priceExGst := of_Z 75000; axles := of_Z 3; includeGstInDuty := true;
  applyDutyCap := true; firstTimeLicensing := true;
  includeInsuranceLines := true; inspectionType := none |}.

Definition tc4 : CalcInput := {|
  priceExGst := of_Z 50000; axles := of_Z 2; includeGstInDuty := false;
  applyDutyCap := true; firstTimeLicensing := true;
  includeInsuranceLines := false; inspectionType := none |}.

Definition tc5 : CalcInput := {|
  priceExGst := of_Z 75000; axles := of_Z 3; includeGstInDuty := true;
  applyDutyCap := true; firstTimeLicensing := true;
  includeInsuranceLines := true; inspectionType := initial |}.

Definition tc6 : CalcInput := {|
  priceExGst := of_Z 75000; axles := of_Z 3; includeGstInDuty := true;
  applyDutyCap := true; firstTimeLicensing := true;
  includeInsuranceLines := true; inspectionType := reinspection |}.

Definition tc7 : CalcInput := {|
  priceExGst := of_Z 75000; axles := of_Z 3; includeGstInDuty := true;
  applyDutyCap := true; firstTimeLicensing := false;
  includeInsuranceLines := true; inspectionType := none |}.

(** Inputs outside the declared domain. *)
Definition with_axles (n : Z) (input : CalcInput) : CalcInput := {|
  priceExGst := priceExGst input; axles := of_Z n;
  includeGstInDuty := includeGstInDuty input;
  applyDutyCap := applyDutyCap input;
  firstTimeLicensing := firstTimeLicensing input;
  includeInsuranceLines := includeInsuranceLines input;
  inspectionType := inspectionType input |}.

Definition with_price (p : number) (input : CalcInput) : CalcInput := {|
  priceExGst := p; axles := axles input;
  includeGstInDuty := includeGstInDuty input;
  applyDutyCap := applyDutyCap input;
  firstTimeLicensing := firstTimeLicensing input;
  includeInsuranceLines := includeInsuranceLines input;
  inspectionType := inspectionType input |}.

(** A configuration whose per-axle fee is not a whole number of cents:
    [DEFAULTS] with [licencePerAxle] set to 572.025. *)
Definition cfg_subcent : Cfg.t := {|
  Cfg.gstRate := Cfg.gstRate App.DEFAULTS;
  Cfg.dutyRate := Cfg.dutyRate App.DEFAULTS;
  Cfg.dutyCap := Cfg.dutyCap App.DEFAULTS;
  Cfg.licencePerAxle := dec 572025 3;
  Cfg.recordingFee := Cfg.recordingFee App.DEFAULTS;
  Cfg.plateFee := Cfg.plateFee App.DEFAULTS;
  Cfg.insuranceBase := Cfg.insuranceBase App.DEFAULTS;
  Cfg.insuranceGstRate := Cfg.insuranceGstRate App.DEFAULTS;
  Cfg.insuranceDutyRate := Cfg.insuranceDutyRate App.DEFAULTS;
  Cfg.inspectionInitial := Cfg.inspectionInitial App.DEFAULTS;
  Cfg.inspectionReinspection := Cfg.inspectionReinspection App.DEFAULTS |}.

(** The third scenario without the duty cap. *)
Definition tc3_uncapped : CalcInput := {|
  priceExGst := of_Z 1000000; axles := of_Z 1; includeGstInDuty := true;
  applyDutyCap := false; firstTimeLicensing := true;
  includeInsuranceLines := false; inspectionType := none |}.

(** A price whose raw duty is the cap exactly: 363636.36. *)
Definition tc_cap_exact : CalcInput := with_price (dec 36363636 2) tc3.

(** ** The formulas in the words of the specification *)

Module Spec.

(** The rounding rule the specification recommends: to the nearest
    integer, ties away from zero. *)
Definition round (x : number) : number :=
  match x with
  | S754_finite s m e =>
      if 0 <=? e then x
      else
        let d := - e in
        binary_normalize prec emax
          (cond_Zopp s (Z.shiftr (Zpos m + Z.shiftl 1 (d - 1)) d)) 0 s
  | _ => x
  end.

(** Step 6: round(licencePerAxle_in_minor_units * axles), the per-axle
    amount being converted to cents as every other configured amount
    is, by [toCents]. *)
Definition licenceFee (cfg : Cfg.t) (input : CalcInput) : number :=
  Math_round (App.toCents (Cfg.licencePerAxle cfg) * axles input).

(** The same step with the per-axle amount scaled to cents but not yet
    rounded. *)
Definition licenceFee_scaled (cfg : Cfg.t) (input : CalcInput) : number :=
  Math_round ((Cfg.licencePerAxle cfg * of_Z 100) * axles input).

(** Steps 1-4: the duty chain. *)
Definition P (input : CalcInput) : number :=
  Math_round (priceExGst input * of_Z 100).

Definition gst (cfg : Cfg.t) (input : CalcInput) : number :=
  if includeGstInDuty input then Math_round (P input * Cfg.gstRate cfg)
  else of_Z 0.

Definition dutiable (cfg : Cfg.t) (input : CalcInput) : number :=
  (P input + gst cfg input)%num.

Definition dutyRaw (cfg : Cfg.t) (input : CalcInput) : number :=
  Math_round (dutiable cfg input * Cfg.dutyRate cfg).

(** Step 5. *)
Definition duty (cfg : Cfg.t) (input : CalcInput) : number :=
  if applyDutyCap input
  then Math_min (dutyRaw cfg input)
                (Math_round (Cfg.dutyCap cfg * of_Z 100))
  else dutyRaw cfg input.

End Spec.

(** All twelve fields of an output satisfy [P]. *)
Definition all_fields (P : number -> Prop) (o : CalcOutput) : Prop :=
  P (gst o) /\ P (dutiable o) /\ P (duty o) /\ P (licenceFee o) /\
  P (insuranceBase o) /\ P (insuranceGst o) /\ P (insuranceDuty o) /\
  P (recordingFee o) /\ P (plateFee o) /\ P (inspectionFee o) /\
  P (roadRegoSubtotal o) /\ P (totalOnRoad o).

(** ** Predicates on numbers

    [signed s x]: [x] is a zero, an infinity or a finite number of sign
    bit [s]; in particular [x] is not [NaN]. *)

Definition signed (s : bool) (x : number) : Prop :=
  match x with
  | S754_zero s' | S754_infinity s' | S754_finite s' _ _ => s' = s
  | S754_nan => False
  end.

(** [0 <= x] as the source language evaluates it. *)
Definition ge0 (x : number) : bool := leb (of_Z 0) x.

(** A finite number greater than zero. *)
Definition finite_pos (x : number) : Prop :=
  match x with S754_finite false _ _ => True | _ => False end.

(** The 53-bit mantissa of a positive integer of at most 53 bits. *)
Definition norm53 (p : positive) : positive :=
  match (53 - Zpos (digits2_pos p))%Z with
  | Zpos d => Pos.iter xO p d
  | _ => p
  end.

(** The integer a number denotes, when it denotes one. *)
Definition to_Z (x : number) : option Z :=
  match x with
  | S754_zero _ => Some 0
  | S754_finite s m e =>
      if 0 <=? e then Some (cond_Zopp s (Zpos m * 2 ^ e))
      else if Zpos m mod 2 ^ (- e) =? 0
           then Some (cond_Zopp s (Zpos m / 2 ^ (- e)))
           else None
  | _ => None
  end.

(** A number that, when it is finite, denotes an integer. *)
Definition integral (x : number) : Prop :=
  match x with
  | S754_nan | S754_infinity _ => True
  | _ => exists z, to_Z x = Some z
  end.

(** ** The component [HTAxleCalc] (src/App.tsx, lines 103-127)

    [Math.max]: [NaN] if either argument is [NaN]; [+0] is larger than
    [-0]. *)

Definition Math_max (x y : number) : number :=
  match SFcompare x y with
  | None => NaN
  | Some Gt => x
  | Some Lt => y
  | Some Eq =>
      match x, y with
      | S754_zero sx, S754_zero sy => S754_zero (sx && sy)
      | _, _ => x
      end
  end.

(** Truthiness of a number: the zeros and [NaN] are falsy.  [or_else]
    is the operator [||] on numbers. *)
Definition ToBoolean (x : number) : bool :=
  match x with
  | S754_zero _ | S754_nan => false
  | _ => true
  end.

Definition or_else (x d : number) : number := if ToBoolean x then x else d.

(** [priceExGst.replace(/[^0-9.]/g, "")]: the digits and dots of the
    text, in order. *)
Definition is_digit (c : ascii) : bool :=
  ((48 <=? N_of_ascii c) && (N_of_ascii c <=? 57))%N.

Definition is_dot (c : ascii) : bool := (N_of_ascii c =? 46)%N.

Fixpoint strip (s : string) : string :=
  match s with
  | EmptyString => EmptyString
  | String c s' =>
      if is_digit c || is_dot c then String c (strip s') else strip s'
  end.

(** [Number(s)] for a text [s] of digits and dots, all that [strip]
    leaves.  The empty text is [0]; digits with at most one dot, before,
    between or after them, denote the binary64 nearest to the decimal
    value [n / 10^k], [n] the digits read as one integer and [k] the
    number of digits after the dot; anything else (a dot alone, two
    dots) is [NaN].  [scan] returns [n], [k] and the number of digits
    read. *)
Definition of_decimal (n : N) (k : nat) : number :=
  match n with
  | N0 => S754_zero false
  | Npos p =>
      SFdiv prec emax (S754_finite false p 0)
                      (S754_finite false (Z.to_pos (10 ^ Z.of_nat k)) 0)
  end.

Fixpoint scan (s : string) (n : N) (k : nat) (dot : bool) (nd : nat)
  : option (N * nat * nat) :=
  match s with
  | EmptyString => Some (n, k, nd)
  | String c s' =>
      if is_digit c
      then scan s' (10 * n + (N_of_ascii c - 48))%N
                (if dot then S k else k) dot (S nd)
      else if is_dot c
           then if dot then None else scan s' n k true nd
           else None
  end.

Definition Number_numeric (s : string) : number :=
  match s with
  | EmptyString => S754_zero false
  | _ =>
      match scan s 0%N 0%nat false 0%nat with
      | Some (n, k, S _) => of_decimal n k
      | _ => NaN
      end
  end.

(** Line 112: [Number(priceExGst.replace(/[^0-9.]/g, "")) || 0]. *)
Definition parsedPrice (priceExGst : string) : number :=
  or_else (Number_numeric (strip priceExGst)) (of_Z 0).

(** Line 179: [Math.max(1, Math.min(9, Number(e.target.value) || 1))],
    as a function of [Number(e.target.value)]. *)
Definition onChangeAxles (v : number) : number :=
  Math_max (of_Z 1) (Math_min (of_Z 9) (or_else v (of_Z 1))).

(** Whether a text contains a digit; whether it consists of digits;
    the value of a text of digits in base ten. *)
Fixpoint has_digit (s : string) : bool :=
  match s with
  | EmptyString => false
  | String c s' => is_digit c || has_digit s'
  end.

Fixpoint all_digits (s : string) : bool :=
  match s with
  | EmptyString => true
  | String c s' => is_digit c && all_digits s'
  end.

Fixpoint digits_value (n : N) (s : string) : N :=
  match s with
  | EmptyString => n
  | String c s' => digits_value (10 * n + (N_of_ascii c - 48))%N s'
  end.

(** Lines 104-110: the state, one field per [useState], and its
    initial value. *)
Record State := {
  s_priceExGst : string;
  s_axles : number;
  s_includeGstInDuty : bool;
  s_applyDutyCap : bool;
  s_firstTimeLicensing : bool;
  s_includeInsuranceLines : bool;
  s_inspectionType : InspectionType
}.

Definition initialState : State := {|
  s_priceExGst := "75000"; s_axles := of_Z 3;
  s_includeGstInDuty := true; s_applyDutyCap := true;
  s_firstTimeLicensing := true; s_includeInsuranceLines := true;
  s_inspectionType := initial |}.

(** Line 183: the five preset buttons. *)
Variant Preset := Preset1 | Preset2 | Preset3 | Preset4 | Preset5.

Definition preset_value (p : Preset) : number :=
  match p with
  | Preset1 => of_Z 1 | Preset2 => of_Z 2 | Preset3 => of_Z 3
  | Preset4 => of_Z 4 | Preset5 => of_Z 5
  end.

(** The event handlers of the component (lines 167, 179, 184, 193-220,
    271-280): what the user can type, tick and click.  [AxlesInput v]
    carries [Number(e.target.value)]; copying the breakdown leaves the
    state as it is. *)
Variant Event :=
  | PriceInput (value : string)
  | AxlesInput (v : number)
  | PresetClick (p : Preset)
  | GstInDutyChecked (checked : bool)
  | DutyCapChecked (checked : bool)
  | FirstTimeChecked (checked : bool)
  | InsuranceChecked (checked : bool)
  | InspectionChosen (t : InspectionType)
  | ResetClick
  | CopyClick.

Definition handle (st : State) (ev : Event) : State :=
  match ev with
  | PriceInput value =>
      {| s_priceExGst := value; s_axles := s_axles st;
         s_includeGstInDuty := s_includeGstInDuty st;
         s_applyDutyCap := s_applyDutyCap st;
         s_firstTimeLicensing := s_firstTimeLicensing st;
         s_includeInsuranceLines := s_includeInsuranceLines st;
         s_inspectionType := s_inspectionType st |}
  | AxlesInput v =>
      {| s_priceExGst := s_priceExGst st; s_axles := onChangeAxles v;
         s_includeGstInDuty := s_includeGstInDuty st;
         s_applyDutyCap := s_applyDutyCap st;
         s_firstTimeLicensing := s_firstTimeLicensing st;
         s_includeInsuranceLines := s_includeInsuranceLines st;
         s_inspectionType := s_inspectionType st |}
  | PresetClick p =>
      {| s_priceExGst := s_priceExGst st; s_axles := preset_value p;
         s_includeGstInDuty := s_includeGstInDuty st;
         s_applyDutyCap := s_applyDutyCap st;
         s_firstTimeLicensing := s_firstTimeLicensing st;
         s_includeInsuranceLines := s_includeInsuranceLines st;
         s_inspectionType := s_inspectionType st |}
  | GstInDutyChecked b =>
      {| s_priceExGst := s_priceExGst st; s_axles := s_axles st;
         s_includeGstInDuty := b;
         s_applyDutyCap := s_applyDutyCap st;
         s_firstTimeLicensing := s_firstTimeLicensing st;
         s_includeInsuranceLines := s_includeInsuranceLines st;
         s_inspectionType := s_inspectionType st |}
  | DutyCapChecked b =>
      {| s_priceExGst := s_priceExGst st; s_axles := s_axles st;
         s_includeGstInDuty := s_includeGstInDuty st;
         s_applyDutyCap := b;
         s_firstTimeLicensing := s_firstTimeLicensing st;
         s_includeInsuranceLines := s_includeInsuranceLines st;
         s_inspectionType := s_inspectionType st |}
  | FirstTimeChecked b =>
      {| s_priceExGst := s_priceExGst st; s_axles := s_axles st;
         s_includeGstInDuty := s_includeGstInDuty st;
         s_applyDutyCap := s_applyDutyCap st;
         s_firstTimeLicensing := b;
         s_includeInsuranceLines := s_includeInsuranceLines st;
         s_inspectionType := s_inspectionType st |}
  | InsuranceChecked b =>
      {| s_priceExGst := s_priceExGst st; s_axles := s_axles st;
         s_includeGstInDuty := s_includeGstInDuty st;
         s_applyDutyCap := s_applyDutyCap st;
         s_firstTimeLicensing := s_firstTimeLicensing st;
         s_includeInsuranceLines := b;
         s_inspectionType := s_inspectionType st |}
  | InspectionChosen t =>
      {| s_priceExGst := s_priceExGst st; s_axles := s_axles st;
         s_includeGstInDuty := s_includeGstInDuty st;
         s_applyDutyCap := s_applyDutyCap st;
         s_firstTimeLicensing := s_firstTimeLicensing st;
         s_includeInsuranceLines := s_includeInsuranceLines st;
         s_inspectionType := t |}
  | ResetClick =>
      {| s_priceExGst := "0"; s_axles := of_Z 3;
         s_includeGstInDuty := true; s_applyDutyCap := true;
         s_firstTimeLicensing := true; s_includeInsuranceLines := true;
         s_inspectionType := initial |}
  | CopyClick => st
  end.

(** The state after a sequence of events. *)
Definition run (st : State) (evs : list Event) : State :=
  fold_left handle evs st.

(** Lines 114-127: the input passed to [calculate] and the output that
    is rendered. *)
Definition input_of (st : State) : CalcInput := {|
  priceExGst := parsedPrice (s_priceExGst st);
  axles := s_axles st;
  includeGstInDuty := s_includeGstInDuty st;
  applyDutyCap := s_applyDutyCap st;
  firstTimeLicensing := s_firstTimeLicensing st;
  includeInsuranceLines := s_includeInsuranceLines st;
  inspectionType := s_inspectionType st |}.

Definition out (st : State) : CalcOutput := App.calculate (input_of st) None.

(** The axle count of a state is between 1 and 9. *)
Definition axles_in_range (st : State) : Prop :=
  leb (of_Z 1) (s_axles st) = true /\ leb (s_axles st) (of_Z 9) = true.

(** A zero of either sign; a number that is neither [NaN] nor an
    infinity. *)
Definition is_zero (x : number) : bool :=
  match x with S754_zero _ => true | _ => false end.

Definition is_finite (x : number) : bool :=
  match x with S754_zero _ | S754_finite _ _ _ => true | _ => false end.

(** [input] with the duty cap switched on or off. *)
Definition with_cap (b : bool) (input : CalcInput) : CalcInput := {|
  priceExGst := priceExGst input; axles := axles input;
  includeGstInDuty := includeGstInDuty input;
  applyDutyCap := b;
  firstTimeLicensing := firstTimeLicensing input;
  includeInsuranceLines := includeInsuranceLines input;
  inspectionType := inspectionType input |}.

(** The dearest input of the default configuration: nine axles, every
    fee charged, a price whose duty reaches the cap. *)
Definition tc_max : CalcInput := {|
  priceExGst := of_Z 1000000; axles := of_Z 9; includeGstInDuty := true;
  applyDutyCap := true; firstTimeLicensing := true;
  includeInsuranceLines := true; inspectionType := initial |}.





(** A zero, or a finite number with a mantissa below 2^53 and an
    exponent of at most [E]: a number of magnitude below 2^(E+53) that
    is neither [NaN] nor an infinity. *)
Definition small (E : Z) (x : number) : Prop :=
  match x with
  | S754_zero _ => True
  | S754_finite _ m e => Zpos m < 2 ^ 53 /\ e <= E
  | _ => False
  end.

(** The numbers of an input and of a configuration are all [small E]. *)
Definition input_small (E : Z) (input : CalcInput) : Prop :=
  small E (priceExGst input) /\ small E (axles input).

Definition cfg_small (E : Z) (r : Cfg.t) : Prop :=
  small E (Cfg.gstRate r) /\ small E (Cfg.dutyRate r) /\
  small E (Cfg.dutyCap r) /\ small E (Cfg.licencePerAxle r) /\
  small E (Cfg.recordingFee r) /\ small E (Cfg.plateFee r) /\
  small E (Cfg.insuranceBase r) /\ small E (Cfg.insuranceGstRate r) /\
  small E (Cfg.insuranceDutyRate r) /\ small E (Cfg.inspectionInitial r) /\
  small E (Cfg.inspectionReinspection r).

(** * Facts about the arithmetic *)

(** ** The literals of the source as bit patterns

    Each decimal literal is the binary64 it denotes: mantissa and
    exponent agree with the IEEE encodings 0x3FB999999999999A (0.10),
    0x3F9EB851EB851EB8 (0.03), 0x3FBC28F5C28F5C29 (0.11),
    0x4024E66666666666 (10.45) and 0x402D2E147AE147AE (14.59). *)

Example literal_0_10 : dec 10 2 = S754_finite false 0x1999999999999A (-56).
Proof. vm_compute; reflexivity. Qed.

Example literal_0_03 : dec 3 2 = S754_finite false 0x1EB851EB851EB8 (-58).
Proof. vm_compute; reflexivity. Qed.

Example literal_0_11 : dec 11 2 = S754_finite false 0x1C28F5C28F5C29 (-56).
Proof. vm_compute; reflexivity. Qed.

Example literal_10_45 : dec 1045 2 = S754_finite false 0x14E66666666666 (-49).
Proof. vm_compute; reflexivity. Qed.

Example literal_14_59 : dec 1459 2 = S754_finite false 0x1D2E147AE147AE (-49).
Proof. vm_compute; reflexivity. Qed.

Example literal_32_0 : dec 320 1 = of_Z 32.
Proof. vm_compute; reflexivity. Qed.

Example literal_100 : of_Z 100 = S754_finite false 0x19000000000000 (-46).
Proof. vm_compute; reflexivity. Qed.

(** [Math.round] on ties and near zero. *)
Example Math_round_ties :
  Math_round (dec 25 1) = of_Z 3 /\
  Math_round (neg (dec 25 1)) = neg (of_Z 2) /\
  Math_round (neg (dec 5 1)) = S754_zero true /\
  Math_round (dec 5 1) = of_Z 1 /\
  Math_round (dec 4999 4) = of_Z 0 /\
  Math_round (neg (dec 26 1)) = neg (of_Z 3) /\
  Math_round NaN = NaN /\
  Math_round Infinity = Infinity.
Proof. vm_compute; repeat split; reflexivity. Qed.

(** The integer a number denotes. *)
Example to_Z_values :
  to_Z (of_Z 171600) = Some 171600 /\
  to_Z (of_Z (-330)) = Some (-330) /\
  to_Z (dec 25 1) = None /\
  to_Z (S754_zero true) = Some 0 /\
  to_Z (S754_finite false 3 1) = Some 6 /\
  to_Z NaN = None.
Proof. vm_compute; repeat split; reflexivity. Qed.

(** ** Signs of the results of the arithmetic *)

Section Signs.

Lemma shr_1_nonneg mrs : 0 <= shr_m mrs -> 0 <= shr_m (shr_1 mrs).
Proof.
  destruct mrs as [m r s]; simpl.
  destruct m as [|[p|p|]|[p|p|]]; simpl; lia.
Qed.

Lemma iter_shr_1_nonneg p :
  forall mrs, 0 <= shr_m mrs -> 0 <= shr_m (iter_pos shr_1 p mrs).
Proof.
  induction p as [p IH|p IH|]; intros mrs H; simpl.
  - apply IH, IH, shr_1_nonneg, H.
  - apply IH, IH, H.
  - apply shr_1_nonneg, H.
Qed.

Lemma shr_nonneg mrs e n : 0 <= shr_m mrs -> 0 <= shr_m (fst (shr mrs e n)).
Proof.
  intros H; destruct n; simpl; auto using iter_shr_1_nonneg.
Qed.

Lemma shr_fexp_nonneg m e l :
  0 <= m -> 0 <= shr_m (fst (shr_fexp prec emax m e l)).
Proof.
  intros H; unfold shr_fexp; apply shr_nonneg.
  destruct l as [|[]]; exact H.
Qed.

Lemma round_nearest_even_nonneg m l : 0 <= m -> 0 <= round_nearest_even m l.
Proof.
  intros H; destruct l as [|[]]; simpl; try lia.
  destruct (Z.even m); lia.
Qed.

Lemma binary_round_aux_signed s mx ex lx :
  0 <= mx -> signed s (binary_round_aux prec emax s mx ex lx).
Proof.
  intros H; unfold binary_round_aux.
  pose proof (shr_fexp_nonneg mx ex lx H) as H1.
  destruct (shr_fexp prec emax mx ex lx) as [mrs' e']; simpl in H1.
  pose proof (shr_fexp_nonneg _ e' loc_Exact
                (round_nearest_even_nonneg _ (loc_of_shr_record mrs') H1)) as H2.
  destruct (shr_fexp prec emax _ e' loc_Exact) as [mrs'' e'']; simpl in H2.
  destruct (shr_m mrs'') as [|m|m]; [reflexivity| |lia].
  destruct (e'' <=? emax - prec); reflexivity.
Qed.

Lemma binary_round_signed s m e : signed s (binary_round prec emax s m e).
Proof.
  unfold binary_round.
  destruct (shl_align m e _) as [mz ez].
  apply binary_round_aux_signed; lia.
Qed.

Lemma binary_normalize_nonneg n e : 0 <= n -> signed false (binary_normalize prec emax n e false).
Proof.
  intros H; destruct n as [|p|p]; simpl; try reflexivity; try lia.
  apply binary_round_signed.
Qed.

Lemma ge0_signed x : ge0 x = true <-> signed false x \/ exists s, x = S754_zero s.
Proof.
  unfold ge0, leb, SFleb; split.
  - destruct x as [s|[]| |[] m e]; simpl; intros H; try discriminate; eauto.
  - intros [H|[s ->]]; [|reflexivity].
    destruct x as [s|[]| |[] m e]; simpl in *; try discriminate; tauto.
Qed.

Lemma signed_false_ge0 x : signed false x -> ge0 x = true.
Proof. intros H; apply ge0_signed; now left. Qed.

Lemma mul_nonneg_pos x c :
  ge0 x = true -> finite_pos c -> ge0 (x * c) = true.
Proof.
  destruct c as [|?| |[] mc ec]; try contradiction; intros Hx _.
  destruct x as [s|[]| |[] m e]; try discriminate; try reflexivity.
  apply signed_false_ge0; unfold mul, SFmul.
  apply binary_round_aux_signed; lia.
Qed.

Lemma mul_pos_nonneg c x :
  finite_pos c -> ge0 x = true -> ge0 (c * x) = true.
Proof.
  destruct c as [|?| |[] mc ec]; try contradiction; intros _ Hx.
  destruct x as [s|[]| |[] m e]; try discriminate; try reflexivity.
  apply signed_false_ge0; unfold mul, SFmul.
  apply binary_round_aux_signed; lia.
Qed.

Lemma add_nonneg x y : ge0 x = true -> ge0 y = true -> ge0 (x + y) = true.
Proof.
  destruct x as [sx|[]| |[] mx ex]; try discriminate;
    destruct y as [sy|[]| |[] my ey]; try discriminate; intros _ _;
    try reflexivity.
  - destruct sx, sy; reflexivity.
  - apply signed_false_ge0; unfold add, SFadd.
    apply binary_normalize_nonneg; simpl; lia.
Qed.

Lemma Math_round_nonneg x : ge0 x = true -> ge0 (Math_round x) = true.
Proof.
  destruct x as [s|[]| |[] m e]; try discriminate; intros _; try reflexivity.
  unfold Math_round.
  destruct (0 <=? e); [reflexivity|].
  apply signed_false_ge0, binary_normalize_nonneg.
  apply Z.shiftr_nonneg; simpl cond_Zopp.
  assert (0 <= Z.shiftl 1 (- e - 1)) by (apply Z.shiftl_nonneg; lia).
  lia.
Qed.

(** On numbers [>= 0] [Math.round] is rounding half away from zero;
    on negative ties the two differ. *)
Lemma Math_round_half_away x : ge0 x = true -> Math_round x = Spec.round x.
Proof.
  destruct x as [s|[]| |[] m e]; try discriminate; reflexivity.
Qed.

Example Math_round_negative_tie :
  Math_round (neg (dec 25 1)) = neg (of_Z 2) /\
  Spec.round (neg (dec 25 1)) = neg (of_Z 3).
Proof. vm_compute; split; reflexivity. Qed.

Lemma div_nonneg_pos x c :
  ge0 x = true -> finite_pos c -> ge0 (x / c) = true.
Proof.
  destruct c as [|?| |[] mc ec]; try contradiction; intros Hx _.
  destruct x as [s|[]| |[] m e]; try discriminate; try reflexivity.
  apply signed_false_ge0; unfold div, SFdiv, SFdiv_core_binary.
  match goal with
  | |- context [Z.div_eucl ?a ?b] =>
      pose proof (Z.div_pos a b) as Hq; unfold Z.div in Hq;
      destruct (Z.div_eucl a b) as [q r] eqn:E
  end.
  apply binary_round_aux_signed, Hq; [|lia].
  match goal with
  | |- 0 <= match ?t with _ => _ end => destruct t; try lia
  end.
  apply Z.shiftl_nonneg; lia.
Qed.

Lemma SFcompare_refl x : x <> NaN -> SFcompare x x = Some Eq.
Proof.
  destruct x as [s|[]| |[] m e]; intros H; try reflexivity;
    try (now elim H); simpl;
    rewrite Z.compare_refl, Pos.compare_cont_refl; reflexivity.
Qed.

Lemma Math_min_nonneg x y :
  ge0 x = true -> ge0 y = true -> ge0 (Math_min x y) = true.
Proof.
  intros Hx Hy; unfold Math_min.
  destruct (SFcompare x y) as [[]|] eqn:E; auto.
  - destruct x, y; auto.
  - destruct x as [s|[]| |[] m e]; try discriminate;
      destruct y as [sy|[]| |[] my ey]; discriminate.
Qed.

Lemma Math_min_le_r x y :
  x <> NaN -> y <> NaN -> leb (Math_min x y) y = true.
Proof.
  intros Hx Hy; unfold Math_min, leb, SFleb.
  destruct (SFcompare x y) as [[]|] eqn:E.
  - destruct x as [sx|sx| |sx mx ex], y as [sy|sy| |sy my ey];
      try rewrite E; try reflexivity.
  - rewrite E; reflexivity.
  - rewrite SFcompare_refl by assumption; reflexivity.
  - destruct x, y; try (now elim Hx); try (now elim Hy); discriminate.
Qed.

Lemma Math_min_eqb x y : eqb x y = true -> eqb (Math_min x y) y = true.
Proof.
  unfold eqb, SFeqb, Math_min.
  destruct (SFcompare x y) as [[]|] eqn:E; try discriminate; intros _.
  destruct x as [sx|sx| |sx mx ex], y as [sy|sy| |sy my ey];
    try rewrite E; reflexivity.
Qed.

Lemma ge0_not_NaN x : ge0 x = true -> x <> NaN.
Proof. intros H ->; discriminate. Qed.

Lemma of_Z_nonneg n : 0 <= n -> ge0 (of_Z n) = true.
Proof. intros H; apply signed_false_ge0, binary_normalize_nonneg, H. Qed.

End Signs.

(** ** Integers below 2^53 are represented and added exactly *)

Section Exact.

Lemma iter_xO_value p k : Zpos (Pos.iter xO p k) = Zpos p * 2 ^ Zpos k.
Proof.
  induction k as [|k IH] using Pos.peano_ind.
  - simpl. lia.
  - rewrite Pos.iter_succ, Pos2Z.inj_xO, IH, Pos2Z.inj_succ, Z.pow_succ_r by lia.
    lia.
Qed.

Lemma digits2_iter_xO p k :
  Zpos (digits2_pos (Pos.iter xO p k)) = Zpos (digits2_pos p) + Zpos k.
Proof.
  induction k as [|k IH] using Pos.peano_ind.
  - simpl. lia.
  - rewrite Pos.iter_succ. cbn [digits2_pos]. lia.
Qed.

Lemma fexp_small d : -1021 <= d -> fexp prec emax d = d - 53.
Proof. unfold fexp, emin, prec, emax; lia. Qed.

(** A canonical mantissa is left as it is. *)
Lemma binary_round_aux_canonical s m e :
  fexp prec emax (Zpos (digits2_pos m) + e) = e -> e <= emax - prec ->
  binary_round_aux prec emax s (Zpos m) e loc_Exact = S754_finite s m e.
Proof.
  intros Hc He; unfold binary_round_aux, shr_fexp.
  cbn [Zdigits2 shr_record_of_loc].
  rewrite Hc, Z.sub_diag; cbn [shr shr_m loc_of_shr_record round_nearest_even Zdigits2].
  rewrite Hc, Z.sub_diag; cbn [shr shr_m].
  apply Z.leb_le in He; rewrite He; reflexivity.
Qed.

Lemma iter_shr_1_iter_xO j :
  forall q,
    iter_pos shr_1 j
      {| shr_m := Zpos (Pos.iter xO q j); shr_r := false; shr_s := false |}
    = {| shr_m := Zpos q; shr_r := false; shr_s := false |}.
Proof.
  induction j as [j IH|j IH|]; intros q; cbn [Pos.iter iter_pos].
  - cbn [shr_1 orb]. rewrite IH, IH. reflexivity.
  - rewrite IH, IH. reflexivity.
  - reflexivity.
Qed.

(** Trailing zeros of the mantissa move into the exponent. *)
Lemma binary_round_aux_shift s m j e :
  fexp prec emax (Zpos (digits2_pos m) + e) = e -> e <= emax - prec ->
  binary_round_aux prec emax s (Zpos (Pos.iter xO m j)) (e - Zpos j) loc_Exact
  = S754_finite s m e.
Proof.
  intros Hc He; unfold binary_round_aux, shr_fexp.
  cbn [Zdigits2 shr_record_of_loc].
  rewrite digits2_iter_xO.
  replace (Zpos (digits2_pos m) + Zpos j + (e - Zpos j))
    with (Zpos (digits2_pos m) + e) by lia.
  rewrite Hc.
  replace (e - (e - Zpos j)) with (Zpos j) by lia.
  cbn [shr]. rewrite iter_shr_1_iter_xO.
  cbn [shr_m loc_of_shr_record round_nearest_even Zdigits2].
  replace (e - Zpos j + Zpos j) with e by lia.
  rewrite Hc, Z.sub_diag; cbn [shr shr_m].
  apply Z.leb_le in He; rewrite He; reflexivity.
Qed.

Lemma norm53_canonical p :
  Zpos (digits2_pos p) <= 53 ->
  fexp prec emax (Zpos (digits2_pos (norm53 p)) + (Zpos (digits2_pos p) - 53))
  = Zpos (digits2_pos p) - 53.
Proof.
  intros H; unfold norm53.
  destruct (53 - Zpos (digits2_pos p)) as [|d|d] eqn:E; try lia.
  - rewrite fexp_small; lia.
  - rewrite digits2_iter_xO, fexp_small; lia.
Qed.

Lemma binary_round_small s p :
  Zpos (digits2_pos p) <= 53 ->
  binary_round prec emax s p 0
  = S754_finite s (norm53 p) (Zpos (digits2_pos p) - 53).
Proof.
  intros H; unfold binary_round.
  rewrite Z.add_0_r, fexp_small by lia.
  pose proof (norm53_canonical p H) as Hc.
  unfold shl_align, norm53 in *.
  rewrite Z.sub_0_r.
  destruct (Zpos (digits2_pos p) - 53) as [|d|d] eqn:E; try lia.
  - replace (53 - Zpos (digits2_pos p)) with 0 in * by lia.
    apply binary_round_aux_canonical; [exact Hc | unfold emax, prec; lia].
  - replace (53 - Zpos (digits2_pos p)) with (Zpos d) in * by lia.
    apply binary_round_aux_canonical; [exact Hc | unfold emax, prec; lia].
Qed.

Lemma binary_round_iter s p k :
  Zpos (digits2_pos p) <= 53 ->
  binary_round prec emax s (Pos.iter xO p k) (Zneg k)
  = S754_finite s (norm53 p) (Zpos (digits2_pos p) - 53).
Proof.
  intros H; unfold binary_round.
  rewrite digits2_iter_xO.
  replace (Zpos (digits2_pos p) + Zpos k + Zneg k)
    with (Zpos (digits2_pos p)) by lia.
  rewrite fexp_small by lia.
  pose proof (norm53_canonical p H) as Hc.
  assert (Zpos (digits2_pos p) - 53 <= emax - prec) as He
    by (unfold emax, prec; lia).
  unfold shl_align.
  destruct (Zpos (digits2_pos p) - 53 - Zneg k) as [|j|d] eqn:E.
  - (* the mantissa has exactly 53 bits *)
    assert (norm53 p = Pos.iter xO p k) as Hn.
    { unfold norm53. replace (53 - Zpos (digits2_pos p)) with (Zpos k) by lia.
      reflexivity. }
    rewrite Hn in *.
    replace (Zpos (digits2_pos p) - 53) with (Zneg k) in * by lia.
    apply binary_round_aux_canonical; assumption.
  - (* more than 53 bits: the low [j] bits are zeros *)
    assert (Pos.iter xO p k = Pos.iter xO (norm53 p) j) as ->.
    { unfold norm53.
      destruct (53 - Zpos (digits2_pos p)) as [|d|d] eqn:E'; try lia.
      - f_equal; lia.
      - rewrite <- Pos.iter_add. f_equal; lia. }
    replace (Zneg k) with (Zpos (digits2_pos p) - 53 - Zpos j) by lia.
    apply binary_round_aux_shift; assumption.
  - (* fewer than 53 bits: shift left *)
    rewrite <- Pos.iter_add.
    assert (norm53 p = Pos.iter xO p (d + k)) as Hn.
    { unfold norm53.
      replace (53 - Zpos (digits2_pos p)) with (Zpos (d + k)) by lia.
      reflexivity. }
    rewrite Hn in *.
    apply binary_round_aux_canonical; assumption.
Qed.

Lemma digits2_pos_bounds p :
  2 ^ (Zpos (digits2_pos p) - 1) <= Zpos p < 2 ^ Zpos (digits2_pos p).
Proof.
  induction p as [p IH|p IH|]; cbn [digits2_pos].
  - rewrite Pos2Z.inj_succ, (Pos2Z.inj_xI p).
    replace (Z.succ (Zpos (digits2_pos p)) - 1)
      with (Z.succ (Zpos (digits2_pos p) - 1)) by lia.
    rewrite !Z.pow_succ_r by lia. lia.
  - rewrite Pos2Z.inj_succ, (Pos2Z.inj_xO p).
    replace (Z.succ (Zpos (digits2_pos p)) - 1)
      with (Z.succ (Zpos (digits2_pos p) - 1)) by lia.
    rewrite !Z.pow_succ_r by lia. lia.
  - simpl. lia.
Qed.

Lemma digits2_pos_le p k : Zpos p < 2 ^ k -> Zpos (digits2_pos p) <= k.
Proof.
  intros H.
  destruct (Z_le_gt_dec (Zpos (digits2_pos p)) k) as [L|G]; [exact L|].
  exfalso.
  pose proof (digits2_pos_bounds p) as [B _].
  assert (0 <= k) by (destruct k; try lia; simpl in H; lia).
  assert (2 ^ k <= 2 ^ (Zpos (digits2_pos p) - 1))
    by (apply Z.pow_le_mono_r; lia).
  lia.
Qed.

Lemma norm53_value p :
  Zpos (digits2_pos p) <= 53 ->
  Zpos (norm53 p) = Zpos p * 2 ^ (53 - Zpos (digits2_pos p)).
Proof.
  intros H; unfold norm53.
  destruct (53 - Zpos (digits2_pos p)) as [|d|d] eqn:E; try lia.
  apply iter_xO_value.
Qed.

(** Integer literals below 2^53 in normal form. *)
Lemma of_Z_pos p :
  Zpos p < 2 ^ 53 ->
  of_Z (Zpos p) = S754_finite false (norm53 p) (Zpos (digits2_pos p) - 53).
Proof.
  intros H; unfold of_Z; cbn [binary_normalize].
  apply binary_round_small, digits2_pos_le, H.
Qed.

Lemma to_Z_norm53 s p :
  Zpos (digits2_pos p) <= 53 ->
  to_Z (S754_finite s (norm53 p) (Zpos (digits2_pos p) - 53))
  = Some (cond_Zopp s (Zpos p)).
Proof.
  intros HD; unfold to_Z. rewrite norm53_value by exact HD.
  destruct (0 <=? Zpos (digits2_pos p) - 53) eqn:E.
  - apply Z.leb_le in E.
    replace (53 - Zpos (digits2_pos p)) with 0 by lia.
    replace (Zpos (digits2_pos p) - 53) with 0 by lia.
    do 2 f_equal; lia.
  - replace (- (Zpos (digits2_pos p) - 53))
      with (53 - Zpos (digits2_pos p)) by lia.
    rewrite Z.mod_mul, Z.eqb_refl by (apply Z.pow_nonzero; lia).
    rewrite Z.div_mul by (apply Z.pow_nonzero; lia).
    reflexivity.
Qed.

Lemma to_Z_of_Z n : 0 <= n < 2 ^ 53 -> to_Z (of_Z n) = Some n.
Proof.
  intros [H0 H]; destruct n as [|p|p]; try lia; [reflexivity|].
  rewrite of_Z_pos by exact H.
  apply (to_Z_norm53 false), digits2_pos_le, H.
Qed.

Lemma shl_align_value m e e' :
  e' <= e -> Zpos (fst (shl_align m e e')) = Zpos m * 2 ^ (e - e').
Proof.
  intros H; unfold shl_align.
  destruct (e' - e) as [|d|d] eqn:E; try lia; cbn [fst].
  - replace (e - e') with 0 by lia. lia.
  - rewrite iter_xO_value. f_equal. f_equal. lia.
Qed.

Lemma binary_round_value s q e p :
  e <= 0 -> Zpos q = Zpos p * 2 ^ (- e) -> Zpos (digits2_pos p) <= 53 ->
  binary_round prec emax s q e
  = S754_finite s (norm53 p) (Zpos (digits2_pos p) - 53).
Proof.
  intros He Hq HD; destruct e as [|k|k]; try lia.
  - assert (q = p) as -> by (simpl in Hq; lia).
    apply binary_round_small, HD.
  - assert (q = Pos.iter xO p k) as ->.
    { apply Pos2Z.inj. rewrite Hq, iter_xO_value. reflexivity. }
    apply binary_round_iter, HD.
Qed.

(** Addition of two non-negative integers is exact below 2^53. *)
Lemma add_of_Z a b :
  0 <= a -> 0 <= b -> a + b < 2 ^ 53 ->
  (of_Z a + of_Z b)%num = of_Z (a + b).
Proof.
  intros Ha Hb Hab.
  destruct a as [|pa|pa]; try lia;
    [destruct b as [|pb|pb]; try lia; [reflexivity|];
     cbn [Z.add]; rewrite of_Z_pos by lia; reflexivity|].
  destruct b as [|pb|pb]; try lia;
    [rewrite Z.add_0_r, of_Z_pos by lia; reflexivity|].
  rewrite (of_Z_pos pa), (of_Z_pos pb) by lia.
  change (Zpos pa + Zpos pb) with (Zpos (pa + pb)).
  rewrite (of_Z_pos (pa + pb)) by lia.
  pose proof (digits2_pos_le pa 53 ltac:(lia)) as Da.
  pose proof (digits2_pos_le pb 53 ltac:(lia)) as Db.
  pose proof (digits2_pos_le (pa + pb) 53 ltac:(lia)) as Dab.
  unfold add, SFadd.
  set (ea := Zpos (digits2_pos pa) - 53).
  set (eb := Zpos (digits2_pos pb) - 53).
  set (ez := Z.min ea eb).
  cbn [cond_Zopp].
  assert (Zpos (fst (shl_align (norm53 pa) ea ez))
          + Zpos (fst (shl_align (norm53 pb) eb ez))
          = Zpos (pa + pb) * 2 ^ (- ez)) as Hsum.
  { rewrite !shl_align_value by (unfold ez; lia).
    rewrite !norm53_value by assumption.
    rewrite <- !Z.mul_assoc, <- !Z.pow_add_r by (unfold ez, ea, eb; lia).
    replace (53 - Zpos (digits2_pos pa) + (ea - ez)) with (- ez)
      by (unfold ea; lia).
    replace (53 - Zpos (digits2_pos pb) + (eb - ez)) with (- ez)
      by (unfold eb; lia).
    rewrite Pos2Z.inj_add. lia. }
  destruct (Zpos (fst (shl_align (norm53 pa) ea ez))
            + Zpos (fst (shl_align (norm53 pb) eb ez))) as [|q|q] eqn:E;
    try lia.
  cbn [binary_normalize].
  apply binary_round_value; [unfold ez, ea, eb; lia | exact Hsum | exact Dab].
Qed.

Lemma shr_1_div2 mrs :
  0 <= shr_m mrs -> shr_m (shr_1 mrs) = shr_m mrs / 2.
Proof.
  destruct mrs as [m r s]; cbn [shr_m]; intros H.
  destruct m as [|[p|p|]|p]; try lia; cbn [shr_1 shr_m].
  - reflexivity.
  - rewrite (Pos2Z.inj_xI p), Z.mul_comm, Z.div_add_l by lia. reflexivity.
  - rewrite (Pos2Z.inj_xO p), Z.mul_comm, Z.div_mul by lia. reflexivity.
  - reflexivity.
Qed.

Lemma iter_shr_1_div j :
  forall mrs, 0 <= shr_m mrs ->
    shr_m (iter_pos shr_1 j mrs) = shr_m mrs / 2 ^ Zpos j.
Proof.
  induction j as [j IH|j IH|]; intros mrs H; cbn [iter_pos].
  - rewrite IH, IH, shr_1_div2 by auto using iter_shr_1_nonneg, shr_1_nonneg.
    rewrite !Z.div_div by (try apply Z.pow_pos_nonneg; lia).
    f_equal.
    replace (Zpos j~1) with (1 + Zpos j + Zpos j) by lia.
    rewrite !Z.pow_add_r by lia. change (2 ^ 1) with 2. ring.
  - rewrite IH, IH by auto using iter_shr_1_nonneg.
    rewrite !Z.div_div by (try apply Z.pow_pos_nonneg; lia).
    f_equal.
    replace (Zpos j~0) with (Zpos j + Zpos j) by lia.
    rewrite !Z.pow_add_r by lia. ring.
  - rewrite shr_1_div2 by exact H. reflexivity.
Qed.

Lemma round_nearest_even_ge m l : m <= round_nearest_even m l.
Proof.
  destruct l as [|[]]; cbn [round_nearest_even]; try lia.
  destruct (Z.even m); lia.
Qed.

(** An integer of more than 53 bits rounds to a number of positive
    exponent, or overflows. *)
Lemma binary_round_big s p :
  53 < Zpos (digits2_pos p) ->
  match binary_round prec emax s p 0 with
  | S754_finite s' _ e => s' = s /\ 1 <= e
  | S754_infinity s' => s' = s
  | _ => False
  end.
Proof.
  intros HD; unfold binary_round.
  rewrite Z.add_0_r, fexp_small by lia.
  unfold shl_align. rewrite Z.sub_0_r.
  destruct (Zpos (digits2_pos p) - 53) as [|j|j] eqn:Ej; try lia.
  unfold binary_round_aux; unfold shr_fexp at 1.
  cbn [Zdigits2 shr_record_of_loc]. rewrite Z.add_0_r, fexp_small by lia.
  rewrite Z.sub_0_r, Ej. cbn [shr].
  set (mrs := iter_pos shr_1 j _).
  assert (2 ^ 52 <= shr_m mrs) as Hm.
  { unfold mrs; rewrite iter_shr_1_div by (cbn; lia). cbn [shr_m].
    apply Z.div_le_lower_bound; [apply Z.pow_pos_nonneg; lia|].
    rewrite <- Z.pow_add_r by lia.
    pose proof (digits2_pos_bounds p) as [B _].
    replace (Zpos j + 52) with (Zpos (digits2_pos p) - 1) by lia. exact B. }
  pose proof (round_nearest_even_ge (shr_m mrs) (loc_of_shr_record mrs)) as Hr.
  destruct (round_nearest_even (shr_m mrs) (loc_of_shr_record mrs))
    as [|q|q] eqn:Eq; try lia.
  unfold shr_fexp. cbn [Zdigits2 shr_record_of_loc].
  pose proof (digits2_pos_bounds q) as [Bl Bu].
  assert (53 <= Zpos (digits2_pos q)) as Hq.
  { destruct (Z_le_gt_dec 53 (Zpos (digits2_pos q))) as [L|G]; [exact L|].
    assert (2 ^ Zpos (digits2_pos q) <= 2 ^ 52)
      by (apply Z.pow_le_mono_r; lia). lia. }
  rewrite Z.add_0_l, fexp_small by lia.
  destruct (Zpos (digits2_pos q) + Zpos j - 53 - Zpos j) as [|k|k] eqn:Ek;
    try lia; cbn [shr fst snd].
  - cbn [shr_m]. destruct (Zpos j <=? emax - prec); [split; [reflexivity|lia] | reflexivity].
  - rewrite iter_shr_1_div by (cbn; lia). cbn [shr_m].
    assert (2 ^ 52 <= Zpos q / 2 ^ Zpos k) as Hk.
    { apply Z.div_le_lower_bound; [apply Z.pow_pos_nonneg; lia|].
      rewrite <- Z.pow_add_r by lia.
      replace (Zpos k + 52) with (Zpos (digits2_pos q) - 1) by lia.
      exact Bl. }
    destruct (Zpos q / 2 ^ Zpos k) as [|m|m]; try lia.
    destruct (Zpos j + Zpos k <=? emax - prec);
      [split; [reflexivity|lia] | reflexivity].
Qed.

Lemma binary_round_integral s p : integral (binary_round prec emax s p 0).
Proof.
  destruct (Z_le_gt_dec (Zpos (digits2_pos p)) 53) as [L|G].
  - rewrite binary_round_small by exact L.
    eexists; apply to_Z_norm53, L.
  - pose proof (binary_round_big s p ltac:(lia)) as B.
    destruct (binary_round prec emax s p 0) as [?|s'| |s' m e];
      try contradiction; [exact I|].
    destruct B as [_ B]; unfold integral, to_Z.
    assert ((0 <=? e) = true) as -> by (apply Z.leb_le; lia).
    eexists; reflexivity.
Qed.

(** [Math.round] gives an integer whenever it gives a finite number. *)
Lemma Math_round_integral x : integral (Math_round x).
Proof.
  destruct x as [s|s| |s m e]; try exact I; [exists 0; reflexivity|].
  unfold Math_round. destruct (0 <=? e) eqn:E.
  - unfold integral, to_Z. rewrite E. eexists; reflexivity.
  - destruct (Z.shiftr _ _) as [|p|p]; cbn [binary_normalize].
    + exists 0; reflexivity.
    + apply binary_round_integral.
    + apply binary_round_integral.
Qed.

Lemma cap_cents_bits :
  of_Z 1200000 = S754_finite false 5153960755200000 (-32).
Proof. vm_compute; reflexivity. Qed.

Lemma compare_cont_not_Gt (p q : positive) :
  Some (Pos.compare_cont Eq p q) <> Some Gt -> Zpos p <= Zpos q.
Proof.
  intros H.
  rewrite Pos.compare_cont_spec in H. cbn [Pos.switch_Eq] in H.
  apply Pos2Z.pos_le_pos, Pos.compare_le_iff.
  intros Hgt. apply H. rewrite Hgt. reflexivity.
Qed.

Lemma of_Z_le_cap_small p :
  Zpos (digits2_pos p) <= 53 ->
  SFcompare (S754_finite false (norm53 p) (Zpos (digits2_pos p) - 53))
            (S754_finite false 5153960755200000 (-32)) <> Some Gt ->
  Zpos p <= 1200000.
Proof.
  intros L H.
  pose proof (digits2_pos_bounds p) as [Bl Bu].
  cbn [SFcompare] in H.
  destruct (Zpos (digits2_pos p) - 53 ?= -32) eqn:C.
  - apply Z.compare_eq in C.
    apply compare_cont_not_Gt in H.
    rewrite norm53_value in H by exact L.
    replace (53 - Zpos (digits2_pos p)) with 32 in H by lia.
    change (2 ^ 32) with 4294967296 in H. lia.
  - rewrite Z.compare_lt_iff in C.
    assert (2 ^ Zpos (digits2_pos p) <= 2 ^ 20)
      by (apply Z.pow_le_mono_r; lia).
    change (2 ^ 20) with 1048576 in *. lia.
  - elim H; reflexivity.
Qed.

Lemma of_Z_gt_cap_big p :
  53 < Zpos (digits2_pos p) ->
  SFcompare (of_Z (Zpos p)) (S754_finite false 5153960755200000 (-32))
  = Some Gt.
Proof.
  intros G. pose proof (binary_round_big false p G) as B.
  unfold of_Z; cbn [binary_normalize].
  destruct (binary_round prec emax false p 0) as [?|s'| |s' m e];
    try contradiction.
  - subst s'; reflexivity.
  - destruct B as [-> B]; cbn [SFcompare].
    assert ((e ?= -32) = Gt) as C by (apply Z.compare_gt_iff; lia).
    rewrite C. reflexivity.
Qed.

(** An integer literal that does not compare greater than the cap in
    cents is at most 1200000. *)
Lemma of_Z_le_cap n :
  0 <= n -> SFcompare (of_Z n) (of_Z 1200000) <> Some Gt -> n <= 1200000.
Proof.
  intros H0 H; destruct n as [|p|p]; try lia.
  rewrite cap_cents_bits in H.
  destruct (Z_le_gt_dec (Zpos (digits2_pos p)) 53) as [L|G].
  - pose proof (digits2_pos_bounds p) as [Bl Bu].
    assert (2 ^ Zpos (digits2_pos p) <= 2 ^ 53)
      by (apply Z.pow_le_mono_r; lia).
    rewrite of_Z_pos in H by lia.
    apply of_Z_le_cap_small; assumption.
  - elim H. apply of_Z_gt_cap_big. lia.
Qed.

Lemma Math_min_finite_r x s m e :
  match SFcompare x (S754_finite s m e) with
  | Some Gt => Math_min x (S754_finite s m e) = S754_finite s m e
  | Some _ => Math_min x (S754_finite s m e) = x
  | None => x = NaN
  end.
Proof.
  unfold Math_min.
  destruct (SFcompare x (S754_finite s m e)) as [[]|] eqn:C;
    destruct x; try reflexivity; discriminate.
Qed.

(** The capped duty is a whole number of cents between zero and the
    cap (or [-0], when the raw duty is [-0]). *)
Lemma min_round_cap_cases y :
  ge0 y = true ->
  exists d,
    (0 <= d <= 1200000) /\
    to_Z (Math_min (Math_round y) (of_Z 1200000)) = Some d /\
    (Math_min (Math_round y) (of_Z 1200000) = of_Z d \/
     Math_min (Math_round y) (of_Z 1200000) = S754_zero true).
Proof.
  intros Hy.
  assert (to_Z (of_Z 1200000) = Some 1200000) as Hcapz
    by (vm_compute; reflexivity).
  destruct y as [[]|[]| |[] m e];
    try (exfalso; clear Hcapz; discriminate Hy).
  - exists 0. split; [lia|]. split; [reflexivity | right; reflexivity].
  - exists 0. split; [lia|]. split; [reflexivity | left; reflexivity].
  - exists 1200000. split; [lia|]. split; [exact Hcapz | left; reflexivity].
  - unfold Math_round. destruct (0 <=? e) eqn:E.
    + apply Z.leb_le in E. exists 1200000.
      assert (Math_min (S754_finite false m e) (of_Z 1200000) = of_Z 1200000)
        as Hm.
      { rewrite cap_cents_bits.
        unfold Math_min; cbn [SFcompare].
        assert ((e ?= -32) = Gt) as -> by (apply Z.compare_gt_iff; lia).
        reflexivity. }
      rewrite Hm.
      split; [lia|]. split; [exact Hcapz | left; reflexivity].
    + cbn [cond_Zopp].
      set (n := Z.shiftr (Zpos m + Z.shiftl 1 (- e - 1)) (- e)).
      assert (0 <= n) as Hn.
      { apply Z.shiftr_nonneg.
        assert (0 <= Z.shiftl 1 (- e - 1)) by (apply Z.shiftl_nonneg; lia).
        lia. }
      fold (of_Z n).
      pose proof (of_Z_le_cap n Hn) as Hcap.
      pose proof (of_Z_nonneg n Hn) as Hge.
      pose proof (Math_min_finite_r (of_Z n) false 5153960755200000 (-32))
        as Hmin.
      rewrite <- cap_cents_bits in Hmin.
      assert (n <= 1200000 -> to_Z (of_Z n) = Some n) as Hz
        by (intros Hle; apply to_Z_of_Z;
            change (2 ^ 53) with 9007199254740992; lia).
      destruct (SFcompare (of_Z n) (of_Z 1200000)) as [[]|] eqn:C.
      * assert (n <= 1200000) as Hle by (apply Hcap; discriminate).
        exists n; rewrite Hmin.
        split; [lia|]. split; [exact (Hz Hle) | left; reflexivity].
      * assert (n <= 1200000) as Hle by (apply Hcap; discriminate).
        exists n; rewrite Hmin.
        split; [lia|]. split; [exact (Hz Hle) | left; reflexivity].
      * exists 1200000; rewrite Hmin.
        split; [lia|]. split; [exact Hcapz | left; reflexivity].
      * exfalso. apply ge0_not_NaN in Hge. exact (Hge Hmin).
Qed.

End Exact.

(** ** Converting a capped duty back to dollars *)

Section Division.

Lemma round_nearest_even_le m l : round_nearest_even m l <= m + 1.
Proof.
  destruct l as [|[]]; cbn [round_nearest_even]; try lia.
  destruct (Z.even m); lia.
Qed.

Lemma digits2_pos_unique p k :
  2 ^ (k - 1) <= Zpos p < 2 ^ k -> Zpos (digits2_pos p) = k.
Proof.
  intros [L U].
  pose proof (digits2_pos_bounds p) as [L' U'].
  assert (0 < k).
  { destruct (Z_lt_le_dec 0 k) as [G|G]; [exact G|].
    destruct k as [|k|k]; try lia; simpl in U; lia. }
  pose proof (digits2_pos_le p k U).
  destruct (Z_le_gt_dec k (Zpos (digits2_pos p))) as [G|G]; [lia|].
  assert (2 ^ Zpos (digits2_pos p) <= 2 ^ (k - 1))
    by (apply Z.pow_le_mono_r; lia).
  lia.
Qed.

(** Rounding a mantissa of 53 or 54 bits: the exponent grows by at most
    one and the mantissa is rounded up by at most one. *)
Lemma binary_round_aux_53_54 q e l :
  2 ^ 52 <= Zpos q < 2 ^ 54 - 2 -> -1000 <= e <= 900 ->
  exists m' e',
    binary_round_aux prec emax false (Zpos q) e l = S754_finite false m' e' /\
    ((e' = e /\ Zpos m' <= Zpos q + 1) \/
     (e' = e + 1 /\ Zpos m' <= Zpos q / 2 + 1 /\ 2 ^ 53 <= Zpos q + 1)).
Proof.
  intros [Lq Uq] He.
  change (2 ^ 52) with 4503599627370496 in *.
  change (2 ^ 54) with 18014398509481984 in *.
  unfold binary_round_aux.
  destruct (Z_lt_le_dec (Zpos q) (2 ^ 53)) as [S|B];
    change (2 ^ 53) with 9007199254740992 in *.
  - (* 53 bits *)
    assert (Zpos (digits2_pos q) = 53) as Dq
      by (apply digits2_pos_unique;
          change (2 ^ (53 - 1)) with 4503599627370496;
          change (2 ^ 53) with 9007199254740992; lia).
    unfold shr_fexp at 1. cbn [Zdigits2]. rewrite Dq, fexp_small by lia.
    replace (53 + e - 53 - e) with 0 by lia. cbn [shr].
    assert (shr_m (shr_record_of_loc (Zpos q) l) = Zpos q) as Em
      by (destruct l as [|[]]; reflexivity).
    rewrite Em.
    pose proof (round_nearest_even_ge (Zpos q)
                  (loc_of_shr_record (shr_record_of_loc (Zpos q) l))) as G1.
    pose proof (round_nearest_even_le (Zpos q)
                  (loc_of_shr_record (shr_record_of_loc (Zpos q) l))) as G2.
    destruct (round_nearest_even (Zpos q) _) as [|m1|m1]; try lia.
    unfold shr_fexp. cbn [Zdigits2 shr_record_of_loc].
    destruct (Z_lt_le_dec (Zpos m1) 9007199254740992) as [S1|B1].
    + assert (Zpos (digits2_pos m1) = 53) as Dm
        by (apply digits2_pos_unique;
            change (2 ^ (53 - 1)) with 4503599627370496;
            change (2 ^ 53) with 9007199254740992; lia).
      rewrite Dm, fexp_small by lia.
      replace (53 + e - 53 - e) with 0 by lia. cbn [shr shr_m].
      assert ((e <=? emax - prec) = true) as ->
        by (apply Z.leb_le; unfold emax, prec; lia).
      exists m1, e. split; [reflexivity|]. left. lia.
    + assert (Zpos m1 = 9007199254740992) as E1 by lia.
      assert (Zpos (digits2_pos m1) = 54) as Dm
        by (apply digits2_pos_unique;
            change (2 ^ (54 - 1)) with 9007199254740992;
            change (2 ^ 54) with 18014398509481984; lia).
      rewrite Dm, fexp_small by lia.
      replace (54 + e - 53 - e) with 1 by lia.
      injection E1 as ->.
      cbn [shr iter_pos shr_1 shr_m].
      assert ((e + 1 <=? emax - prec) = true) as ->
        by (apply Z.leb_le; unfold emax, prec; lia).
      eexists _, (e + 1). split; [reflexivity|]. right.
      split; [reflexivity|].
      assert (Zpos q = 9007199254740991) as -> by lia.
      split; vm_compute; discriminate.
  - (* 54 bits *)
    assert (Zpos (digits2_pos q) = 54) as Dq
      by (apply digits2_pos_unique;
          change (2 ^ (54 - 1)) with 9007199254740992;
          change (2 ^ 54) with 18014398509481984; lia).
    unfold shr_fexp at 1. cbn [Zdigits2]. rewrite Dq, fexp_small by lia.
    replace (54 + e - 53 - e) with 1 by lia. cbn [shr iter_pos].
    set (mrs := shr_1 (shr_record_of_loc (Zpos q) l)).
    assert (shr_m mrs = Zpos q / 2) as Em.
    { unfold mrs. rewrite shr_1_div2; destruct l as [|[]]; cbn; lia. }
    rewrite Em.
    assert (4503599627370496 <= Zpos q / 2 < 9007199254740991) as Bh.
    { split; [apply Z.div_le_lower_bound; lia|].
      apply Z.div_lt_upper_bound; lia. }
    pose proof (round_nearest_even_ge (Zpos q / 2) (loc_of_shr_record mrs))
      as G1.
    pose proof (round_nearest_even_le (Zpos q / 2) (loc_of_shr_record mrs))
      as G2.
    destruct (round_nearest_even (Zpos q / 2) _) as [|m1|m1]; try lia.
    unfold shr_fexp. cbn [Zdigits2 shr_record_of_loc].
    assert (Zpos (digits2_pos m1) = 53) as Dm
      by (apply digits2_pos_unique;
          change (2 ^ (53 - 1)) with 4503599627370496;
          change (2 ^ 53) with 9007199254740992; lia).
    rewrite Dm, fexp_small by lia.
    replace (53 + (e + 1) - 53 - (e + 1)) with 0 by lia. cbn [shr shr_m].
    assert ((e + 1 <=? emax - prec) = true) as ->
      by (apply Z.leb_le; unfold emax, prec; lia).
    exists m1, (e + 1). split; [reflexivity|]. right.
    change (2 ^ 53) with 9007199254740992. lia.
Qed.

Lemma finite_leb m e m2 e2 :
  e < e2 \/ (e = e2 /\ Zpos m <= Zpos m2) ->
  leb (S754_finite false m e) (S754_finite false m2 e2) = true.
Proof.
  intros H; unfold leb, SFleb; cbn [SFcompare].
  destruct H as [H | [-> H]].
  - apply Z.compare_lt_iff in H. rewrite H. reflexivity.
  - rewrite Z.compare_refl, Pos.compare_cont_spec. cbn [Pos.switch_Eq].
    assert ((m <= m2)%positive) as H' by exact H.
    unfold Pos.le in H'.
    destruct (Pos.compare m m2); try reflexivity. now elim H'.
Qed.

Lemma norm53_digits p :
  Zpos (digits2_pos p) <= 53 -> Zpos (digits2_pos (norm53 p)) = 53.
Proof.
  intros H; unfold norm53.
  destruct (53 - Zpos (digits2_pos p)) as [|d|d] eqn:E; try lia.
  rewrite digits2_iter_xO. lia.
Qed.

Lemma hundred_bits : of_Z 100 = S754_finite false 7036874417766400 (-46).
Proof. vm_compute; reflexivity. Qed.

Lemma twelve_thousand_bits :
  of_Z 12000 = S754_finite false 6597069766656000 (-39).
Proof. vm_compute; reflexivity. Qed.

(** A whole number of cents up to the cap converts to at most 12000
    dollars. *)
Lemma fromCents_le_cap d :
  0 <= d <= 1200000 -> leb (App.fromCents (of_Z d)) (of_Z 12000) = true.
Proof.
  intros [H0 H1].
  destruct (Z.eq_dec d 1200000) as [->|Hne]; [vm_compute; reflexivity|].
  destruct d as [|p|p]; try lia; [vm_compute; reflexivity|].
  pose proof (digits2_pos_bounds p) as [Bl Bu].
  assert (Zpos (digits2_pos p) <= 21) as HD
    by (apply digits2_pos_le; change (2 ^ 21) with 2097152; lia).
  rewrite of_Z_pos by (change (2 ^ 53) with 9007199254740992; lia).
  unfold App.fromCents, div. rewrite hundred_bits, twelve_thousand_bits.
  unfold SFdiv, SFdiv_core_binary. cbn [xorb Zdigits2].
  rewrite norm53_digits by lia.
  change (Zpos (digits2_pos 7036874417766400)) with 53.
  replace (53 + (Zpos (digits2_pos p) - 53) - (53 + -46))
    with (Zpos (digits2_pos p) - 7) by lia.
  rewrite fexp_small by lia.
  replace (Zpos (digits2_pos p) - 53 - -46) with (Zpos (digits2_pos p) - 7)
    by lia.
  rewrite Z.min_l by lia.
  replace (Zpos (digits2_pos p) - 7 - (Zpos (digits2_pos p) - 7 - 53))
    with 53 by lia.
  rewrite Z.shiftl_mul_pow2, norm53_value by lia.
  set (D := Zpos (digits2_pos p)) in *.
  set (N := Zpos p * 2 ^ (53 - D) * 2 ^ 53).
  assert (fst (Z.div_eucl N 7036874417766400) = N / 7036874417766400)
    as Hq by reflexivity.
  destruct (Z.div_eucl N 7036874417766400) as [q r]; cbn [fst] in Hq.
  assert (D = 1 \/ D = 2 \/ D = 3 \/ D = 4 \/ D = 5 \/ D = 6 \/ D = 7
          \/ D = 8 \/ D = 9 \/ D = 10 \/ D = 11 \/ D = 12 \/ D = 13
          \/ D = 14 \/ D = 15 \/ D = 16 \/ D = 17 \/ D = 18 \/ D = 19
          \/ D = 20 \/ D = 21) as HDc by (unfold D in *; lia).
  assert ((2 ^ 52 <= q < 2 ^ 54 - 2) /\
          (D = 21 -> q + 1 <= 6597069766656000) /\
          (D = 20 -> q / 2 + 1 <= 6597069766656000)) as (Bq & B21 & B20).
  { subst q N. clearbody D.
    repeat (destruct HDc as [HDc | HDc]); subst D;
      repeat match goal with
        | H : context [2 ^ ?e] |- _ =>
            let v := eval vm_compute in (2 ^ e) in
            change (2 ^ e) with v in H
        | |- context [2 ^ ?e] =>
            let v := eval vm_compute in (2 ^ e) in
            change (2 ^ e) with v
        end;
      Z.div_mod_to_equations; lia. }
  destruct q as [|q|q];
    try (change (2 ^ 52) with 4503599627370496 in Bq; lia).
  destruct (binary_round_aux_53_54 q (D - 7 - 53)
              (new_location 7036874417766400 r) Bq ltac:(unfold D; lia))
    as (m' & e' & -> & [[-> Hm] | (-> & Hm & Hov)]);
    apply finite_leb; change (2 ^ 53) with 9007199254740992 in *; lia.
Qed.

End Division.

(** * Properties of [calculate] *)

(** Expose the amounts bound in the body of [calculate] without
    unfolding the arithmetic. *)
Ltac expose_consts :=
  cbv zeta;
  unfold App.calculate, App.consts; cbv zeta;
  cbn [c_P c_gst c_dutiable c_dutyRaw c_dutyCapCents c_duty c_licenceFee
       c_insuranceBase c_insuranceGst c_insuranceDuty c_recordingFee
       c_plateFee c_inspectionFee c_roadRegoSubtotal c_totalOnRoad
       gst dutiable duty licenceFee insuranceBase insuranceGst
       insuranceDuty recordingFee plateFee inspectionFee roadRegoSubtotal
       totalOnRoad].

Ltac expose_consts_in H :=
  cbv zeta in H;
  unfold App.calculate, App.consts in H; cbv zeta in H;
  cbn [c_P c_gst c_dutiable c_dutyRaw c_dutyCapCents c_duty c_licenceFee
       c_insuranceBase c_insuranceGst c_insuranceDuty c_recordingFee
       c_plateFee c_inspectionFee c_roadRegoSubtotal c_totalOnRoad
       gst dutiable duty licenceFee insuranceBase insuranceGst
       insuranceDuty recordingFee plateFee inspectionFee roadRegoSubtotal
       totalOnRoad] in H.

Lemma fromCents_zero : App.fromCents (of_Z 0) = of_Z 0.
Proof. reflexivity. Qed.

Lemma fromCents_nonneg x : ge0 x = true -> ge0 (App.fromCents x) = true.
Proof. intros H; apply div_nonneg_pos; [exact H | exact I]. Qed.

Lemma toCents_nonneg x : ge0 x = true -> ge0 (App.toCents x) = true.
Proof.
  intros H; apply Math_round_nonneg, mul_nonneg_pos; [exact H | exact I].
Qed.

(** Under the default configuration the capped duty of a price [>= 0]
    is a whole number of cents between zero and the cap. *)
Lemma default_capped_duty (input : CalcInput) :
  applyDutyCap input = true -> ge0 (priceExGst input) = true ->
  exists d,
    (0 <= d <= 1200000) /\
    to_Z (c_duty (App.consts input App.DEFAULTS)) = Some d /\
    (c_duty (App.consts input App.DEFAULTS) = of_Z d \/
     c_duty (App.consts input App.DEFAULTS) = S754_zero true).
Proof.
  intros Hcap Hp.
  assert (exists y, ge0 y = true
                    /\ c_duty (App.consts input App.DEFAULTS)
                       = Math_min (Math_round y) (of_Z 1200000))
    as (y & Hy & ->).
  { expose_consts; rewrite Hcap. eexists; split; [|reflexivity].
    pose proof (toCents_nonneg _ Hp) as HP.
    apply mul_nonneg_pos; [|exact I].
    apply add_nonneg; [exact HP|].
    destruct (includeGstInDuty input); [|reflexivity].
    apply Math_round_nonneg, mul_nonneg_pos; [exact HP | exact I]. }
  apply min_round_cap_cases, Hy.
Qed.

Lemma add_of_Z_zero p s :
  Zpos p < 2 ^ 53 -> (of_Z (Zpos p) + S754_zero s)%num = of_Z (Zpos p).
Proof. intros H; rewrite of_Z_pos by exact H; reflexivity. Qed.

(** The fees of the default configuration are whole numbers of cents
    and their sum is exact. *)
Lemma default_fees_exact (input : CalcInput) (n : Z) :
  axles input = of_Z n -> 1 <= n <= 9 ->
  let c := App.consts input App.DEFAULTS in
  let ins := includeInsuranceLines input in
  let first := firstTimeLicensing input in
  let l := 57200 * n in
  let ib := if ins then 1459 else 0 in
  let ig := if ins then 146 else 0 in
  let idu := if ins then 160 else 0 in
  let rf := if first then 1045 else 0 in
  let pf := if first then 3200 else 0 in
  let insp := match inspectionType input with
              | none => 0 | initial => 28400 | reinspection => 17200
              end in
  c_licenceFee c = of_Z l /\ c_insuranceBase c = of_Z ib /\
  c_insuranceGst c = of_Z ig /\ c_insuranceDuty c = of_Z idu /\
  c_recordingFee c = of_Z rf /\ c_plateFee c = of_Z pf /\
  c_inspectionFee c = of_Z insp /\
  c_roadRegoSubtotal c = of_Z (l + ib + ig + idu + rf + pf + insp) /\
  57200 <= l + ib + ig + idu + rf + pf + insp <= 550000.
Proof.
  intros Ha Hn; expose_consts; rewrite Ha.
  assert (n = 1 \/ n = 2 \/ n = 3 \/ n = 4 \/ n = 5 \/ n = 6 \/ n = 7
          \/ n = 8 \/ n = 9) as Hc by lia.
  destruct (includeInsuranceLines input), (firstTimeLicensing input),
    (inspectionType input);
    repeat (destruct Hc as [-> | Hc]); try subst n;
    vm_compute; repeat split; congruence.
Qed.

(** ** Sums of whole numbers of either sign *)

Section ExactSums.



Lemma cond_Zopp_mul s x y : cond_Zopp s x * y = cond_Zopp s (x * y).
Proof. destruct s; unfold cond_Zopp; ring. Qed.




End ExactSums.






(** C2. The duty chain: [P] is the price converted to cents, the GST is
    [Math.round (P * gstRate)] when it is included in the duty base and
    zero otherwise, the dutiable value is their sum and the raw duty is
    [Math.round (dutiable * dutyRate)]; the program computes the chain
    of the specification, and [P], the GST and the raw duty are whole
    numbers of cents whenever they are finite.  For a price [>= 0]
    under the default configuration each [Math.round] of the chain is
    rounding half away from zero. *)
Theorem duty_chain (input : CalcInput) (cfg : option Cfg.t) :
  let r := App.cfg_or_default cfg in
  let c := App.consts input r in
  let o := App.calculate input cfg in
  c_P c = Spec.P input /\
  c_gst c = Spec.gst r input /\
  c_dutiable c = Spec.dutiable r input /\
  c_dutyRaw c = Spec.dutyRaw r input /\
  gst o = App.fromCents (Spec.gst r input) /\
  dutiable o = App.fromCents (Spec.dutiable r input) /\
  duty o = App.fromCents
             (if applyDutyCap input then c_duty c else Spec.dutyRaw r input) /\
  integral (c_P c) /\ integral (c_gst c) /\ integral (c_dutyRaw c) /\
  (cfg = None -> ge0 (priceExGst input) = true ->
   c_P c = Spec.round (priceExGst input * of_Z 100) /\
   c_gst c = (if includeGstInDuty input
              then Spec.round (c_P c * Cfg.gstRate r) else of_Z 0) /\
   c_dutyRaw c = Spec.round (c_dutiable c * Cfg.dutyRate r)).
Proof.
  expose_consts; unfold Spec.dutyRaw, Spec.dutiable, Spec.gst, Spec.P.
  do 6 (split; [reflexivity|]).
  split; [destruct (applyDutyCap input); reflexivity|].
  split; [apply Math_round_integral|].
  split; [destruct (includeGstInDuty input);
          [apply Math_round_integral | exists 0; reflexivity]|].
  split; [apply Math_round_integral|].
  intros -> Hp; cbn [App.cfg_or_default]; unfold App.toCents.
  assert (ge0 (priceExGst input * of_Z 100) = true) as H100
    by (apply mul_nonneg_pos; [exact Hp | exact I]).
  pose proof (Math_round_nonneg _ H100) as HP.
  assert (ge0 (Math_round (priceExGst input * of_Z 100)
               * Cfg.gstRate App.DEFAULTS) = true) as Hg
    by (apply mul_nonneg_pos; [exact HP | exact I]).
  split; [apply Math_round_half_away, H100|].
  split; [destruct (includeGstInDuty input);
          [apply Math_round_half_away, Hg | reflexivity]|].
  apply Math_round_half_away, mul_nonneg_pos; [|exact I].
  apply add_nonneg; [exact HP|].
  destruct (includeGstInDuty input);
    [apply Math_round_nonneg, Hg | reflexivity].
Qed.

Lemma duty_chain_witness :
  c_P (App.consts tc1 App.DEFAULTS) = Spec.round (of_Z 75000 * of_Z 100) /\
  c_dutyRaw (App.consts tc1 App.DEFAULTS)
    = Spec.round (c_dutiable (App.consts tc1 App.DEFAULTS) * dec 3 2).
Proof.
  destruct (duty_chain tc1 None)
    as (_ & _ & _ & _ & _ & _ & _ & _ & _ & _ & H).
  assert (ge0 (priceExGst tc1) = true) as Hp by (vm_compute; reflexivity).
  destruct (H eq_refl Hp) as (H1 & _ & H2).
  split; [exact H1 | exact H2].
Defined.

Lemma price_nonneg_dutyRaw_nonneg (input : CalcInput) :
  ge0 (priceExGst input) = true ->
  ge0 (c_dutyRaw (App.consts input App.DEFAULTS)) = true.
Proof.
  intros Hp; expose_consts.
  pose proof (toCents_nonneg _ Hp) as HP.
  apply Math_round_nonneg, mul_nonneg_pos; [|exact I].
  apply add_nonneg; [exact HP|].
  destruct (includeGstInDuty input); [|reflexivity].
  apply Math_round_nonneg, mul_nonneg_pos; [exact HP | exact I].
Qed.

(** C3. With [applyDutyCap] the duty is [Math.min] of the raw duty and
    the cap in cents, without it the raw duty.  The capped duty never
    exceeds the cap in cents when both are numbers; under the default
    configuration, for every price [>= 0], it is a whole number of
    cents between 0 and 1200000 and the output duty is at most 12000
    dollars; and a raw duty equal to the cap gives a duty equal to the
    cap. *)
Theorem duty_is_capped (input : CalcInput) (cfg : option Cfg.t) :
  let r := App.cfg_or_default cfg in
  let c := App.consts input r in
  let o := App.calculate input cfg in
  c_duty c = Spec.duty r input /\
  c_dutyCapCents c = App.toCents (Cfg.dutyCap r) /\
  duty o = App.fromCents (c_duty c) /\
  (applyDutyCap input = true ->
   c_duty c = Math_min (c_dutyRaw c) (c_dutyCapCents c)) /\
  (applyDutyCap input = false -> c_duty c = c_dutyRaw c) /\
  (applyDutyCap input = true ->
   c_dutyRaw c <> NaN -> c_dutyCapCents c <> NaN ->
   leb (c_duty c) (c_dutyCapCents c) = true) /\
  (applyDutyCap input = true -> cfg = None ->
   ge0 (priceExGst input) = true ->
   leb (c_duty c) (c_dutyCapCents c) = true /\
   leb (duty o) (Cfg.dutyCap r) = true /\
   exists d, to_Z (c_duty c) = Some d /\ (0 <= d <= 1200000) /\
             to_Z (c_dutyCapCents c) = Some 1200000) /\
  (applyDutyCap input = true ->
   eqb (c_dutyRaw c) (c_dutyCapCents c) = true ->
   eqb (c_duty c) (c_dutyCapCents c) = true).
Proof.
  expose_consts; unfold Spec.duty, Spec.dutyRaw, Spec.dutiable, Spec.gst,
    Spec.P, App.toCents.
  split; [reflexivity|]. split; [reflexivity|]. split; [reflexivity|].
  split; [intros ->; reflexivity|].
  split; [intros ->; reflexivity|].
  split; [|split].
  - intros -> Hr Hc. apply Math_min_le_r; assumption.
  - intros Hcap -> Hp. split.
    + rewrite Hcap.
      pose proof (price_nonneg_dutyRaw_nonneg input Hp) as Hr.
      expose_consts_in Hr.
      apply Math_min_le_r; [apply ge0_not_NaN, Hr | vm_compute; discriminate].
    + destruct (default_capped_duty input Hcap Hp) as (d & Bd & Hd & Hc).
      expose_consts_in Hd; expose_consts_in Hc.
      unfold App.toCents in Hd, Hc; cbn [App.cfg_or_default]. split.
      * destruct Hc as [-> | ->];
          [apply fromCents_le_cap, Bd | vm_compute; reflexivity].
      * exists d. split; [exact Hd|]. split; [exact Bd|].
        vm_compute; reflexivity.
  - intros -> E. apply Math_min_eqb, E.
Qed.

Lemma duty_is_capped_witness :
  c_duty (App.consts tc3 App.DEFAULTS)
    = Math_min (of_Z 3300000) (of_Z 1200000) /\
  c_duty (App.consts tc3_uncapped App.DEFAULTS)
    = c_dutyRaw (App.consts tc3_uncapped App.DEFAULTS) /\
  leb (c_duty (App.consts tc3 App.DEFAULTS))
      (c_dutyCapCents (App.consts tc3 App.DEFAULTS)) = true /\
  leb (duty (App.calculate tc3 None)) (of_Z 12000) = true /\
  eqb (c_duty (App.consts tc_cap_exact App.DEFAULTS))
      (c_dutyCapCents (App.consts tc_cap_exact App.DEFAULTS)) = true.
Proof.
  destruct (duty_is_capped tc3 None) as (_ & _ & _ & H1 & _ & H2 & H3 & _).
  destruct (duty_is_capped tc3_uncapped None)
    as (_ & _ & _ & _ & H5 & _).
  destruct (duty_is_capped tc_cap_exact None)
    as (_ & _ & _ & _ & _ & _ & _ & H4).
  assert (ge0 (priceExGst tc3) = true) as Hp by (vm_compute; reflexivity).
  assert (c_dutyRaw (App.consts tc3 (App.cfg_or_default None)) <> NaN) as Hr
    by (vm_compute; discriminate).
  assert (c_dutyCapCents (App.consts tc3 (App.cfg_or_default None)) <> NaN)
    as Hc by (vm_compute; discriminate).
  destruct (H3 eq_refl eq_refl Hp) as (_ & L2 & _).
  split; [|split; [|split; [|split]]].
  - etransitivity; [exact (H1 eq_refl)|]. vm_compute; reflexivity.
  - exact (H5 eq_refl).
  - exact (H2 eq_refl Hr Hc).
  - exact L2.
  - apply (H4 eq_refl). vm_compute; reflexivity.
Defined.

(** C4, as the specification states it, fails: with a per-axle fee of
    572.025 and three axles the program converts the product
    1716.0749999999998 to 171607 cents, where the per-axle fee in cents
    times three gives 171609 (per-axle fee rounded to 57203 cents) or
    171608 (per-axle fee scaled to 57202.5 cents). *)
Lemma licence_fee_not_per_axle_cents :
  c_licenceFee (App.consts tc1 cfg_subcent) = of_Z 171607 /\
  Spec.licenceFee cfg_subcent tc1 = of_Z 171609 /\
  Spec.licenceFee_scaled cfg_subcent tc1 = of_Z 171608 /\
  licenceFee (App.calculate tc1 (Some cfg_subcent))
    <> App.fromCents (Spec.licenceFee cfg_subcent tc1) /\
  licenceFee (App.calculate tc1 (Some cfg_subcent))
    <> App.fromCents (Spec.licenceFee_scaled cfg_subcent tc1).
Proof.
  vm_compute; repeat split; discriminate.
Qed.

(** C4, amended.  The licence fee in cents is the per-axle fee in
    dollars times the axle count, converted to cents by one
    [Math.round]; under the default configuration with 1 to 9 axles
    this is the per-axle fee in cents times the axle count,
    [57200 * axles]. *)
Theorem licence_fee_converts_product (input : CalcInput) (cfg : option Cfg.t) :
  let r := App.cfg_or_default cfg in
  let c := App.consts input r in
  let o := App.calculate input cfg in
  c_licenceFee c
    = Math_round ((Cfg.licencePerAxle r * axles input) * of_Z 100) /\
  licenceFee o = App.fromCents (c_licenceFee c) /\
  (forall n : Z, cfg = None -> axles input = of_Z n -> 1 <= n <= 9 ->
     c_licenceFee c = Spec.licenceFee r input /\
     c_licenceFee c = Spec.licenceFee_scaled r input /\
     c_licenceFee c = of_Z (57200 * n) /\
     to_Z (c_licenceFee c) = Some (57200 * n)).
Proof.
  expose_consts; split; [reflexivity|]; split; [reflexivity|].
  intros n -> Ha Hn; unfold Spec.licenceFee, Spec.licenceFee_scaled;
    rewrite Ha.
  assert (n = 1 \/ n = 2 \/ n = 3 \/ n = 4 \/ n = 5 \/ n = 6 \/ n = 7
          \/ n = 8 \/ n = 9) as Hc by lia.
  repeat (destruct Hc as [-> | Hc]); try subst n;
    vm_compute; repeat split; reflexivity.
Qed.

Lemma licence_fee_converts_product_witness :
  c_licenceFee (App.consts tc1 App.DEFAULTS) = Spec.licenceFee App.DEFAULTS tc1
  /\ c_licenceFee (App.consts tc1 App.DEFAULTS) = of_Z (57200 * 3).
Proof.
  assert (1 <= 3 <= 9) as Hn by lia.
  destruct (licence_fee_converts_product tc1 None) as (_ & _ & H).
  destruct (H 3 eq_refl eq_refl Hn) as (H1 & _ & H2 & _).
  split; [exact H1 | exact H2].
Defined.

(** C5. With [includeInsuranceLines] the insurance base is the
    configured base converted to cents, the insurance GST and duty are
    [Math.round] of that base in cents times their rates; without it
    the three fields are zero. *)
Theorem insurance_lines (input : CalcInput) (cfg : option Cfg.t) :
  let r := App.cfg_or_default cfg in
  let c := App.consts input r in
  let o := App.calculate input cfg in
  insuranceBase o = App.fromCents (c_insuranceBase c) /\
  insuranceGst o = App.fromCents (c_insuranceGst c) /\
  insuranceDuty o = App.fromCents (c_insuranceDuty c) /\
  if includeInsuranceLines input then
    c_insuranceBase c = Math_round (Cfg.insuranceBase r * of_Z 100) /\
    c_insuranceGst c
      = Math_round (c_insuranceBase c * Cfg.insuranceGstRate r) /\
    c_insuranceDuty c
      = Math_round (c_insuranceBase c * Cfg.insuranceDutyRate r)
  else
    c_insuranceBase c = of_Z 0 /\ c_insuranceGst c = of_Z 0 /\
    c_insuranceDuty c = of_Z 0 /\
    insuranceBase o = of_Z 0 /\ insuranceGst o = of_Z 0 /\
    insuranceDuty o = of_Z 0.
Proof.
  expose_consts.
  destruct (includeInsuranceLines input);
    repeat (split; [reflexivity|]); reflexivity.
Qed.

(** C6. Without [firstTimeLicensing] the recording fee and the plate
    fee are zero, with it they are the configured amounts in cents; the
    inspection fee is zero for [none], the initial fee alone for
    [initial] and the reinspection fee alone for [reinspection]. *)
Theorem first_time_and_inspection_fees (input : CalcInput) (cfg : option Cfg.t) :
  let r := App.cfg_or_default cfg in
  let c := App.consts input r in
  let o := App.calculate input cfg in
  recordingFee o = App.fromCents (c_recordingFee c) /\
  plateFee o = App.fromCents (c_plateFee c) /\
  inspectionFee o = App.fromCents (c_inspectionFee c) /\
  (if firstTimeLicensing input then
     c_recordingFee c = App.toCents (Cfg.recordingFee r) /\
     c_plateFee c = App.toCents (Cfg.plateFee r)
   else
     c_recordingFee c = of_Z 0 /\ c_plateFee c = of_Z 0 /\
     recordingFee o = of_Z 0 /\ plateFee o = of_Z 0) /\
  match inspectionType input with
  | none => c_inspectionFee c = of_Z 0 /\ inspectionFee o = of_Z 0
  | initial => c_inspectionFee c = App.toCents (Cfg.inspectionInitial r)
  | reinspection =>
      c_inspectionFee c = App.toCents (Cfg.inspectionReinspection r)
  end.
Proof.
  expose_consts; unfold App.toCents.
  destruct (firstTimeLicensing input), (inspectionType input);
    repeat split.
Qed.

(** C7. The end-to-end scenarios under the default configuration: the
    workbook example totals 4233.45; a price of 1,000,000 gives the
    capped duty 12000.00 and the total 12614.45; a price of zero gives
    zero duty and the total 2060.10, the licence, insurance, recording,
    plate and inspection fees still applying.  The values are the
    expected literals exactly, hence within the tolerance of the self
    tests. *)
Theorem end_to_end_scenarios :
  let o1 := App.calculate tc1 None in
  let o3 := App.calculate tc3 None in
  let o8 := App.calculate tc8 None in
  totalOnRoad o1 = dec 423345 2 /\
  Mvp.approx (totalOnRoad o1) (dec 423345 2) = true /\
  duty o3 = of_Z 12000 /\
  Mvp.approx (duty o3) (dec 1200000 2) = true /\
  totalOnRoad o3 = dec 1261445 2 /\
  Mvp.approx (totalOnRoad o3) (dec 1261445 2) = true /\
  duty o8 = of_Z 0 /\
  Mvp.approx (duty o8) (dec 0 2) = true /\
  totalOnRoad o8 = dec 206010 2 /\
  Mvp.approx (totalOnRoad o8) (dec 206010 2) = true /\
  gst o8 = of_Z 0 /\ dutiable o8 = of_Z 0 /\
  licenceFee o8 = of_Z 1716 /\
  insuranceBase o8 = dec 1459 2 /\ insuranceGst o8 = dec 146 2 /\
  insuranceDuty o8 = dec 160 2 /\
  recordingFee o8 = dec 1045 2 /\ plateFee o8 = of_Z 32 /\
  inspectionFee o8 = of_Z 284.
Proof. vm_compute; repeat split; reflexivity. Qed.

(** The cent amounts are non-negative for a non-negative price and
    axle count under the default configuration. *)
Lemma consts_nonneg (input : CalcInput) :
  ge0 (priceExGst input) = true -> ge0 (axles input) = true ->
  let c := App.consts input App.DEFAULTS in
  ge0 (c_gst c) = true /\ ge0 (c_dutiable c) = true /\
  ge0 (c_duty c) = true /\ ge0 (c_licenceFee c) = true /\
  ge0 (c_insuranceBase c) = true /\ ge0 (c_insuranceGst c) = true /\
  ge0 (c_insuranceDuty c) = true /\ ge0 (c_recordingFee c) = true /\
  ge0 (c_plateFee c) = true /\ ge0 (c_inspectionFee c) = true /\
  ge0 (c_roadRegoSubtotal c) = true /\ ge0 (c_totalOnRoad c) = true.
Proof.
  intros Hp Ha.
  pose proof (toCents_nonneg _ Hp) as HP.
  pose proof (price_nonneg_dutyRaw_nonneg input Hp) as Hr.
  expose_consts_in Hr; expose_consts.
  set (P := App.toCents (priceExGst input)) in *.
  assert (ge0 (if includeGstInDuty input
               then Math_round (P * Cfg.gstRate App.DEFAULTS)
               else of_Z 0) = true) as Hgst.
  { destruct (includeGstInDuty input); [|reflexivity].
    apply Math_round_nonneg, mul_nonneg_pos; [exact HP | exact I]. }
  pose proof (add_nonneg _ _ HP Hgst) as Hdut.
  match type of Hr with ge0 ?r = true => set (dutyRaw := r) in * end.
  assert (ge0 (if applyDutyCap input
               then Math_min dutyRaw (App.toCents (Cfg.dutyCap App.DEFAULTS))
               else dutyRaw) = true) as Hduty.
  { destruct (applyDutyCap input); [|exact Hr].
    apply Math_min_nonneg; [exact Hr | vm_compute; reflexivity]. }
  assert (ge0 (App.toCents (Cfg.licencePerAxle App.DEFAULTS * axles input))
          = true) as Hlic.
  { apply toCents_nonneg, mul_pos_nonneg; [exact I | exact Ha]. }
  match goal with
  | |- _ /\ _ /\ _ /\ _ /\ _ /\ _ /\ _ /\ _ /\ _ /\ _ /\ ge0 ?t = true /\ _ =>
      assert (ge0 t = true) as Hsub
  end.
  { repeat apply add_nonneg; try exact Hlic;
      try (destruct (includeInsuranceLines input); vm_compute; reflexivity);
      try (destruct (firstTimeLicensing input); vm_compute; reflexivity).
    destruct (inspectionType input); vm_compute; reflexivity. }
  split; [exact Hgst|]. split; [exact Hdut|]. split; [exact Hduty|].
  split; [exact Hlic|].
  split; [destruct (includeInsuranceLines input); vm_compute; reflexivity|].
  split; [destruct (includeInsuranceLines input); vm_compute; reflexivity|].
  split; [destruct (includeInsuranceLines input); vm_compute; reflexivity|].
  split; [destruct (firstTimeLicensing input); vm_compute; reflexivity|].
  split; [destruct (firstTimeLicensing input); vm_compute; reflexivity|].
  split; [destruct (inspectionType input); vm_compute; reflexivity|].
  split; [exact Hsub|].
  apply add_nonneg; [exact Hsub | exact Hduty].
Qed.

(** The assertions of [runSelfTests] (lines 107-142 of the earlier
    revision) hold for its own [calculate]. *)
Example self_tests_pass :
  Mvp.approx (totalOnRoad (Mvp.calculate tc1 None)) (dec 423345 2) = true /\
  Mvp.approx (totalOnRoad (Mvp.calculate tc2 None)) (dec 425110 2) = true /\
  Mvp.approx (duty (Mvp.calculate tc3 None)) (dec 1200000 2) = true /\
  Mvp.approx (totalOnRoad (Mvp.calculate tc3 None)) (dec 1261445 2) = true /\
  Mvp.approx (duty (Mvp.calculate tc4 None)) (dec 150000 2) = true /\
  Mvp.approx (totalOnRoad (Mvp.calculate tc4 None)) (dec 268645 2) = true /\
  Mvp.approx (totalOnRoad (Mvp.calculate tc5 None)) (dec 453510 2) = true /\
  Mvp.approx (totalOnRoad (Mvp.calculate tc6 None)) (dec 442310 2) = true /\
  Mvp.approx (totalOnRoad (Mvp.calculate tc7 None)) (dec 420865 2) = true /\
  Mvp.approx (totalOnRoad (Mvp.calculate tc8 None)) (dec 206010 2) = true.
Proof. vm_compute; repeat split; reflexivity. Qed.

(** C8. Under the default configuration, for a price [>= 0] and an
    axle count from 1 to 9, with any toggles, the twelve output fields
    are [>= 0]. *)
Theorem outputs_nonneg (input : CalcInput) (n : Z) :
  ge0 (priceExGst input) = true ->
  axles input = of_Z n -> 1 <= n <= 9 ->
  all_fields (fun x => ge0 x = true) (App.calculate input None).
Proof.
  intros Hp Ha Hn.
  assert (ge0 (axles input) = true) as Ha'
    by (rewrite Ha; apply of_Z_nonneg; lia).
  destruct (consts_nonneg input Hp Ha')
    as (H1 & H2 & H3 & H4 & H5 & H6 & H7 & H8 & H9 & H10 & H11 & H12).
  unfold all_fields, App.calculate; cbn [gst dutiable duty licenceFee
    insuranceBase insuranceGst insuranceDuty recordingFee plateFee
    inspectionFee roadRegoSubtotal totalOnRoad App.cfg_or_default].
  repeat (split; [apply fromCents_nonneg; assumption|]).
  apply fromCents_nonneg; assumption.
Qed.

Lemma outputs_nonneg_witness :
  all_fields (fun x => ge0 x = true) (App.calculate tc8 None).
Proof.
  apply (outputs_nonneg tc8 3); [vm_compute; reflexivity | reflexivity | lia].
Defined.

(** ** Finite results, signs and whole numbers of either sign *)

Section Finite.

Lemma small_mono E E' x : small E x -> E <= E' -> small E' x.
Proof. destruct x; cbn; try tauto. intros [Hm He] H. split; lia. Qed.

Lemma small_is_finite E x : small E x -> is_finite x = true.
Proof. destruct x; cbn; try tauto; reflexivity. Qed.

Lemma Zdigits2_bound M : 0 <= M -> 0 <= Zdigits2 M /\ M < 2 ^ Zdigits2 M.
Proof.
  intros H; destruct M as [|p|p]; try lia; cbn [Zdigits2].
  - split; [lia | reflexivity].
  - split; [lia | apply digits2_pos_bounds].
Qed.

Lemma fexp_eq d : fexp prec emax d = Z.max (d - 53) (-1074).
Proof. reflexivity. Qed.

(** Rounding a mantissa gives a zero or a finite number whose exponent
    is bounded by the exponent and the length of the mantissa. *)
Lemma binary_round_aux_small s M ex lx B :
  0 <= M -> ex + 1 <= B -> Zdigits2 M + ex - 52 <= B ->
  -1073 <= B <= 971 ->
  small B (binary_round_aux prec emax s M ex lx).
Proof.
  intros HM H1 H2 HB.
  destruct (Zdigits2_bound M HM) as [HD HMb].
  set (D := Zdigits2 M) in *.
  assert (2 ^ 53 = 9007199254740992) as E53 by reflexivity.
  unfold binary_round_aux.
  unfold shr_fexp at 1. fold D. rewrite fexp_eq.
  assert (exists mrs' e',
             shr (shr_record_of_loc M lx) ex (Z.max (D + ex - 53) (-1074) - ex)
             = (mrs', e')
             /\ 0 <= shr_m mrs' < 2 ^ 53 /\ -1074 <= e' <= B - 1)
    as (mrs' & e' & -> & Hm & He').
  { assert (shr_m (shr_record_of_loc M lx) = M) as EM
      by (destruct lx as [|[]]; reflexivity).
    unfold shr.
    destruct (Z.max (D + ex - 53) (-1074) - ex) as [|j|j] eqn:Ej.
    - eexists _, ex. split; [reflexivity|]. rewrite EM.
      split; [|lia]. split; [exact HM|].
      apply Z.lt_le_trans with (1 := HMb), Z.pow_le_mono_r; lia.
    - eexists _, (ex + Zpos j). split; [reflexivity|].
      rewrite iter_shr_1_div, EM by (rewrite EM; exact HM).
      split; [|lia]. split; [apply Z.div_pos; lia|].
      apply Z.div_lt_upper_bound; [lia|].
      rewrite <- Z.pow_add_r by lia.
      apply Z.lt_le_trans with (1 := HMb), Z.pow_le_mono_r; lia.
    - eexists _, ex. split; [reflexivity|]. rewrite EM.
      split; [|lia]. split; [exact HM|].
      apply Z.lt_le_trans with (1 := HMb), Z.pow_le_mono_r; lia. }
  pose proof (round_nearest_even_ge (shr_m mrs') (loc_of_shr_record mrs'))
    as G1.
  pose proof (round_nearest_even_le (shr_m mrs') (loc_of_shr_record mrs'))
    as G2.
  destruct (round_nearest_even (shr_m mrs') (loc_of_shr_record mrs'))
    as [|p1|p1]; try lia.
  - unfold shr_fexp. cbn [Zdigits2 shr_record_of_loc]. rewrite fexp_eq.
    unfold shr.
    destruct (Z.max (0 + e' - 53) (-1074) - e') as [|j|j] eqn:Ej; try lia;
      exact I.
  - unfold shr_fexp. cbn [Zdigits2 shr_record_of_loc]. rewrite fexp_eq.
    pose proof (digits2_pos_bounds p1) as [Bl Bu].
    assert (Zpos (digits2_pos p1) <= 54) as Hd1
      by (apply digits2_pos_le; change (2 ^ 54) with 18014398509481984; lia).
    set (d1 := Zpos (digits2_pos p1)) in *.
    assert (Zpos p1 < 2 ^ 53 \/ 54 <= d1) as Hcase.
    { destruct (Z_lt_le_dec (Zpos p1) (2 ^ 53)) as [L|G]; [left; exact L|].
      right. assert (2 ^ 53 < 2 ^ d1) as Hp by lia.
      apply Z.pow_lt_mono_r_iff in Hp; lia. }
    unfold shr.
    destruct (Z.max (d1 + e' - 53) (-1074) - e') as [|j|j] eqn:Ej;
      cbn [shr_m].
    + assert ((e' <=? emax - prec) = true) as ->
        by (apply Z.leb_le; unfold emax, prec; lia).
      cbn [small]. split; lia.
    + rewrite iter_shr_1_div by (cbn [shr_m]; lia). cbn [shr_m].
      assert (Zpos p1 / 2 ^ Zpos j < 2 ^ 53) as Hq.
      { apply Z.div_lt_upper_bound; [lia|].
        assert (2 <= 2 ^ Zpos j)
          by (change 2 with (2 ^ 1) at 1; apply Z.pow_le_mono_r; lia).
        nia. }
      assert (0 <= Zpos p1 / 2 ^ Zpos j) as Hq0 by (apply Z.div_pos; lia).
      destruct (Zpos p1 / 2 ^ Zpos j) as [|m|m]; try lia; [exact I|].
      assert ((e' + Zpos j <=? emax - prec) = true) as ->
        by (apply Z.leb_le; unfold emax, prec; lia).
      cbn [small]. split; lia.
    + assert ((e' <=? emax - prec) = true) as ->
        by (apply Z.leb_le; unfold emax, prec; lia).
      cbn [small]. split; lia.
Qed.


Lemma mul_small E1 E2 B x y :
  small E1 x -> small E2 y -> E1 + E2 + 54 <= B -> -1073 <= B <= 971 ->
  small B (x * y)%num.
Proof.
  intros Hx Hy HE HB.
  destruct x as [sx|sx| |sx mx ex], y as [sy|sy| |sy my ey];
    try contradiction; try exact I.
  destruct Hx as [Hmx Hex], Hy as [Hmy Hey].
  unfold mul; cbn [SFmul].
  assert (Zpos (mx * my) < 2 ^ 106) as HP.
  { rewrite Pos2Z.inj_mul. change (2 ^ 106) with (2 ^ 53 * 2 ^ 53).
    apply Z.mul_lt_mono_nonneg; lia. }
  pose proof (digits2_pos_le _ _ HP) as HD.
  apply binary_round_aux_small; cbn [Zdigits2]; lia.
Qed.

Lemma binary_round_small_range s q e B :
  e + 1 <= B -> Zpos (digits2_pos q) + e - 52 <= B -> -1073 <= B <= 971 ->
  small B (binary_round prec emax s q e).
Proof.
  intros H1 H2 HB. unfold binary_round.
  rewrite fexp_eq. unfold shl_align.
  destruct (Z.max (Zpos (digits2_pos q) + e - 53) (-1074) - e)
    as [|j|j] eqn:Ej.
  - apply binary_round_aux_small; cbn [Zdigits2]; lia.
  - apply binary_round_aux_small; cbn [Zdigits2]; lia.
  - apply binary_round_aux_small; cbn [Zdigits2];
      try rewrite digits2_iter_xO; lia.
Qed.

Lemma add_small E1 E2 B x y :
  small E1 x -> small E2 y -> E1 + 2 <= B -> E2 + 2 <= B ->
  -1073 <= B <= 971 ->
  small B (x + y)%num.
Proof.
  intros Hx Hy HE1 HE2 HB.
  destruct x as [sx|sx| |sx mx ex], y as [sy|sy| |sy my ey];
    try contradiction.
  - destruct sx, sy; exact I.
  - apply small_mono with (1 := Hy). lia.
  - apply small_mono with (1 := Hx). lia.
  - destruct Hx as [Hmx Hex], Hy as [Hmy Hey].
    unfold add; cbn [SFadd].
    set (ez := Z.min ex ey). set (M := Z.max ex ey).
    rewrite !shl_align_value by (unfold ez; lia).
    assert (0 < 2 ^ (M - ez)) as HP
      by (apply Z.pow_pos_nonneg; unfold M, ez; lia).
    assert (0 < 2 ^ (ex - ez) <= 2 ^ (M - ez)) as Px
      by (split; [apply Z.pow_pos_nonneg; unfold ez; lia
                 | apply Z.pow_le_mono_r; unfold M, ez; lia]).
    assert (0 < 2 ^ (ey - ez) <= 2 ^ (M - ez)) as Py
      by (split; [apply Z.pow_pos_nonneg; unfold ez; lia
                 | apply Z.pow_le_mono_r; unfold M, ez; lia]).
    assert (2 ^ (54 + (M - ez)) = 2 * 2 ^ 53 * 2 ^ (M - ez)) as E54
      by (rewrite Z.pow_add_r by (unfold M, ez; lia); reflexivity).
    assert (2 ^ 53 = 9007199254740992) as E53 by reflexivity.
    set (A := Zpos mx * 2 ^ (ex - ez)) in *.
    set (C := Zpos my * 2 ^ (ey - ez)) in *.
    assert (0 < A < 2 ^ 53 * 2 ^ (M - ez)) as HA by (unfold A; nia).
    assert (0 < C < 2 ^ 53 * 2 ^ (M - ez)) as HC by (unfold C; nia).
    assert (Z.abs (cond_Zopp sx A + cond_Zopp sy C) < 2 ^ (54 + (M - ez)))
      as HS by (rewrite E54; destruct sx, sy; cbn [cond_Zopp]; lia).
    destruct (cond_Zopp sx A + cond_Zopp sy C) as [|q|q];
      cbn [binary_normalize]; [exact I| |].
    + pose proof (digits2_pos_le q _ HS) as HD.
      apply binary_round_small_range; unfold M, ez in *; lia.
    + pose proof (digits2_pos_le q _ HS) as HD.
      apply binary_round_small_range; unfold M, ez in *; lia.
Qed.


Lemma fromCents_small E B x :
  small E x -> E + 47 <= B -> -1073 <= B <= 971 ->
  small B (App.fromCents x).
Proof.
  intros Hx HE HB. unfold App.fromCents, div. rewrite hundred_bits.
  destruct x as [sx|sx| |sx mx ex]; try contradiction; [exact I|].
  destruct Hx as [Hmx Hex].
  unfold SFdiv, SFdiv_core_binary. cbn [Zdigits2].
  change (Zpos (digits2_pos 7036874417766400)) with 53.
  set (e' := Z.min (fexp prec emax (Zpos (digits2_pos mx) + ex - (53 + -46)))
                   (ex - -46)).
  assert (e' <= ex + 46) as He' by (unfold e'; lia).
  set (s := ex - -46 - e').
  assert (0 <= s) as Hs by (unfold s; lia).
  set (m' := match s with
             | 0 => Zpos mx
             | Zpos _ => Z.shiftl (Zpos mx) s
             | Zneg _ => 0
             end).
  assert (m' = Zpos mx * 2 ^ s) as Em.
  { unfold m'. destruct s as [|j|j] eqn:Es; try lia.
    apply Z.shiftl_mul_pow2. lia. }
  assert (0 < 2 ^ s) as P2 by (apply Z.pow_pos_nonneg; lia).
  assert (fst (Z.div_eucl m' 7036874417766400) = m' / 7036874417766400)
    as Hq by reflexivity.
  destruct (Z.div_eucl m' 7036874417766400) as [q r]; cbn [fst] in Hq.
  assert (2 ^ 53 = 9007199254740992) as E53 by reflexivity.
  assert (0 <= q) as Hq0 by (rewrite Hq; apply Z.div_pos; nia).
  assert (q < 2 ^ (s + 1)) as Hq1.
  { rewrite Hq. apply Z.div_lt_upper_bound; [lia|].
    rewrite Z.pow_add_r, Em by lia. change (2 ^ 1) with 2. nia. }
  assert (Zdigits2 q <= s + 1) as HD.
  { destruct q as [|p|p]; try lia; cbn [Zdigits2]; [lia|].
    apply digits2_pos_le, Hq1. }
  apply binary_round_aux_small; unfold s in *; lia.
Qed.

Lemma norm53_bound p :
  Zpos (digits2_pos p) <= 53 -> Zpos (norm53 p) < 2 ^ 53.
Proof.
  intros H. pose proof (norm53_digits p H) as D.
  pose proof (digits2_pos_bounds (norm53 p)) as [_ B].
  rewrite D in B. exact B.
Qed.

Lemma binary_normalize_int_small n s :
  Z.abs n < 2 ^ 53 -> small 0 (binary_normalize prec emax n 0 s).
Proof.
  intros H. destruct n as [|p|p]; cbn [binary_normalize]; [exact I| |];
    pose proof (digits2_pos_le p 53 H) as HD;
    rewrite binary_round_small by exact HD;
    (split; [apply norm53_bound, HD | lia]).
Qed.

Lemma Math_round_small E x : 0 <= E -> small E x -> small E (Math_round x).
Proof.
  intros HE Hx.
  destruct x as [sx|sx| |sx mx ex]; try contradiction; [exact I|].
  destruct Hx as [Hm He]. unfold Math_round.
  destruct (0 <=? ex) eqn:E0; [split; assumption|].
  apply Z.leb_gt in E0.
  apply small_mono with (E := 0); [|exact HE].
  apply binary_normalize_int_small.
  rewrite Z.shiftr_div_pow2, Z.shiftl_mul_pow2, Z.mul_1_l by lia.
  assert (2 ^ 53 = 9007199254740992) as E53 by reflexivity.
  assert (2 ^ (- ex) = 2 * 2 ^ (- ex - 1)) as E2.
  { replace (- ex) with (1 + (- ex - 1)) at 1 by lia.
    rewrite Z.pow_add_r by lia. reflexivity. }
  assert (0 < 2 ^ (- ex - 1)) as P by (apply Z.pow_pos_nonneg; lia).
  set (h := 2 ^ (- ex - 1)) in *. rewrite E2.
  assert (1 - 2 ^ 53 <= (cond_Zopp sx (Zpos mx) + h) / (2 * h) < 2 ^ 53);
    [|lia].
  split.
  - apply Z.div_le_lower_bound; [lia|].
    destruct sx; cbn [cond_Zopp]; nia.
  - apply Z.div_lt_upper_bound; [lia|].
    destruct sx; cbn [cond_Zopp]; nia.
Qed.

Lemma toCents_small E B x :
  small E x -> E + 8 <= B -> 0 <= B <= 971 -> small B (App.toCents x).
Proof.
  intros Hx HE HB. unfold App.toCents.
  apply Math_round_small; [lia|].
  apply (mul_small E (-46)); try lia; [exact Hx|].
  rewrite hundred_bits. split; [reflexivity | lia].
Qed.

Lemma Math_min_small E x y : small E x -> small E y -> small E (Math_min x y).
Proof.
  intros Hx Hy; unfold Math_min.
  destruct (SFcompare x y) as [[]|] eqn:C; try assumption.
  - destruct x, y; try assumption; exact I.
  - destruct x, y; try contradiction; discriminate.
Qed.

End Finite.

(** The cent amounts of small inputs under a small configuration are
    small: none is [NaN] or an infinity. *)
Lemma consts_small (input : CalcInput) (r : Cfg.t) :
  input_small 200 input -> cfg_small 200 r ->
  let c := App.consts input r in
  small 720 (c_gst c) /\ small 720 (c_dutiable c) /\
  small 720 (c_duty c) /\ small 720 (c_licenceFee c) /\
  small 720 (c_insuranceBase c) /\ small 720 (c_insuranceGst c) /\
  small 720 (c_insuranceDuty c) /\ small 720 (c_recordingFee c) /\
  small 720 (c_plateFee c) /\ small 720 (c_inspectionFee c) /\
  small 720 (c_roadRegoSubtotal c) /\ small 720 (c_totalOnRoad c).
Proof.
  intros [Hp Ha] (G1 & G2 & G3 & G4 & G5 & G6 & G7 & G8 & G9 & G10 & G11).
  expose_consts.
  assert (small 0 (of_Z 0)) as H0 by exact I.
  set (P := App.toCents (priceExGst input)).
  assert (small 208 P) as HP by (apply (toCents_small 200); [exact Hp|lia|lia]).
  set (g := if includeGstInDuty input then Math_round (P * Cfg.gstRate r)
            else of_Z 0).
  assert (small 462 g) as Hg.
  { unfold g. destruct (includeGstInDuty input); [|exact I].
    apply Math_round_small; [lia|].
    apply (mul_small 208 200); [exact HP | exact G1 | lia | lia]. }
  set (db := (P + g)%num).
  assert (small 464 db) as Hdb
    by (apply (add_small 208 462); [exact HP | exact Hg | lia | lia | lia]).
  set (raw := Math_round (db * Cfg.dutyRate r)).
  assert (small 718 raw) as Hraw.
  { apply Math_round_small; [lia|].
    apply (mul_small 464 200); [exact Hdb | exact G2 | lia | lia]. }
  set (cap := App.toCents (Cfg.dutyCap r)).
  assert (small 718 cap) as Hcap
    by (apply (toCents_small 200); [exact G3|lia|lia]).
  set (dt := if applyDutyCap input then Math_min raw cap else raw).
  assert (small 718 dt) as Hdt.
  { unfold dt. destruct (applyDutyCap input); [|exact Hraw].
    apply Math_min_small; assumption. }
  set (lf := App.toCents (Cfg.licencePerAxle r * axles input)).
  assert (small 462 lf) as Hlf.
  { apply (toCents_small 454); [|lia|lia].
    apply (mul_small 200 200); [exact G4 | exact Ha | lia | lia]. }
  set (ib := if includeInsuranceLines input
             then App.toCents (Cfg.insuranceBase r) else of_Z 0).
  assert (small 208 ib) as Hib.
  { unfold ib. destruct (includeInsuranceLines input); [|exact I].
    apply (toCents_small 200); [exact G7|lia|lia]. }
  set (ig := if includeInsuranceLines input
             then Math_round (ib * Cfg.insuranceGstRate r) else of_Z 0).
  assert (small 462 ig) as Hig.
  { unfold ig. destruct (includeInsuranceLines input); [|exact I].
    apply Math_round_small; [lia|].
    apply (mul_small 208 200); [exact Hib | exact G8 | lia | lia]. }
  set (idu := if includeInsuranceLines input
              then Math_round (ib * Cfg.insuranceDutyRate r) else of_Z 0).
  assert (small 462 idu) as Hidu.
  { unfold idu. destruct (includeInsuranceLines input); [|exact I].
    apply Math_round_small; [lia|].
    apply (mul_small 208 200); [exact Hib | exact G9 | lia | lia]. }
  set (rf := if firstTimeLicensing input
             then App.toCents (Cfg.recordingFee r) else of_Z 0).
  assert (small 208 rf) as Hrf.
  { unfold rf. destruct (firstTimeLicensing input); [|exact I].
    apply (toCents_small 200); [exact G5|lia|lia]. }
  set (pf := if firstTimeLicensing input
             then App.toCents (Cfg.plateFee r) else of_Z 0).
  assert (small 208 pf) as Hpf.
  { unfold pf. destruct (firstTimeLicensing input); [|exact I].
    apply (toCents_small 200); [exact G6|lia|lia]. }
  set (insp := match inspectionType input with
               | none => of_Z 0
               | initial => App.toCents (Cfg.inspectionInitial r)
               | reinspection => App.toCents (Cfg.inspectionReinspection r)
               end).
  assert (small 208 insp) as Hinsp.
  { unfold insp. destruct (inspectionType input); [exact I| |];
      apply (toCents_small 200); try lia; assumption. }
  assert (small 474 (lf + ib + ig + idu + rf + pf + insp)%num) as Hsub.
  { apply (add_small 472 208); [|exact Hinsp|lia|lia|lia].
    apply (add_small 470 208); [|exact Hpf|lia|lia|lia].
    apply (add_small 468 208); [|exact Hrf|lia|lia|lia].
    apply (add_small 466 462); [|exact Hidu|lia|lia|lia].
    apply (add_small 464 462); [|exact Hig|lia|lia|lia].
    apply (add_small 462 208); [exact Hlf|exact Hib|lia|lia|lia]. }
  assert (small 720 (lf + ib + ig + idu + rf + pf + insp + dt)%num) as Htot
    by (apply (add_small 474 718); [exact Hsub|exact Hdt|lia|lia|lia]).
  repeat split;
    first [ exact Htot
          | eapply small_mono; [eassumption | lia] ].
Qed.

Section AsGiven.

(** The representation of a whole number of either sign. *)
Lemma of_Z_neg p :
  Zpos p < 2 ^ 53 ->
  of_Z (Zneg p) = S754_finite true (norm53 p) (Zpos (digits2_pos p) - 53).
Proof.
  intros H; unfold of_Z; cbn [binary_normalize].
  apply binary_round_small, digits2_pos_le, H.
Qed.

(** The product of two whole numbers is exact below 2^53. *)
Lemma mul_canonical s1 s2 p1 p2 :
  Zpos p1 * Zpos p2 < 2 ^ 53 ->
  (S754_finite s1 (norm53 p1) (Zpos (digits2_pos p1) - 53)
   * S754_finite s2 (norm53 p2) (Zpos (digits2_pos p2) - 53))%num
  = S754_finite (xorb s1 s2) (norm53 (p1 * p2))
      (Zpos (digits2_pos (p1 * p2)) - 53).
Proof.
  intros H.
  assert (2 ^ 53 = 9007199254740992) as E53 by reflexivity.
  pose proof (digits2_pos_bounds p1) as [L1 U1].
  pose proof (digits2_pos_bounds p2) as [L2 U2].
  pose proof (digits2_pos_bounds (p1 * p2)) as [L12 U12].
  rewrite Pos2Z.inj_mul in L12, U12.
  set (D1 := Zpos (digits2_pos p1)) in *.
  set (D2 := Zpos (digits2_pos p2)) in *.
  set (D12 := Zpos (digits2_pos (p1 * p2))) in *.
  assert (0 < D1 /\ 0 < D2 /\ 0 < D12) as (P1 & P2 & P12)
    by (unfold D1, D2, D12; lia).
  assert (D12 <= 53) as H12
    by (unfold D12; apply digits2_pos_le; rewrite Pos2Z.inj_mul; exact H).
  assert (D1 <= 53) as H1 by (unfold D1; apply digits2_pos_le; nia).
  assert (D2 <= 53) as H2 by (unfold D2; apply digits2_pos_le; nia).
  assert (D1 + D2 - 1 <= D12) as HD.
  { assert (2 ^ (D1 - 1 + (D2 - 1)) < 2 ^ D12) as Hlt.
    { rewrite Z.pow_add_r by lia.
      apply Z.le_lt_trans with (2 := U12).
      apply Z.mul_le_mono_nonneg; try assumption;
        apply Z.pow_nonneg; lia. }
    apply Z.pow_lt_mono_r_iff in Hlt; lia. }
  unfold mul; cbn [SFmul]. fold D1 D2.
  pose proof H1 as H1'. pose proof H2 as H2'. pose proof H12 as H12'.
  unfold D1 in H1'. unfold D2 in H2'. unfold D12 in H12'.
  destruct (53 - D1 - D2 + D12) as [|j|j] eqn:Ej; try lia.
  assert ((norm53 p1 * norm53 p2)%positive
          = Pos.iter xO (norm53 (p1 * p2)) j) as ->.
  { apply Pos2Z.inj.
    rewrite Pos2Z.inj_mul, iter_xO_value, !norm53_value by assumption.
    fold D1 D2 D12. rewrite Pos2Z.inj_mul.
    replace (Zpos p1 * 2 ^ (53 - D1) * (Zpos p2 * 2 ^ (53 - D2)))
      with (Zpos p1 * Zpos p2 * (2 ^ (53 - D1) * 2 ^ (53 - D2))) by ring.
    rewrite <- Z.pow_add_r by lia.
    replace (53 - D1 + (53 - D2)) with (53 - D12 + Zpos j) by lia.
    rewrite Z.pow_add_r by lia. ring. }
  replace (D1 - 53 + (D2 - 53)) with (D12 - 53 - Zpos j) by lia.
  apply binary_round_aux_shift;
    [apply norm53_canonical; exact H12'
    | unfold emax, prec; lia].
Qed.

(** [Math.round] leaves a whole number as it is. *)
Lemma Math_round_canonical s p :
  Zpos (digits2_pos p) <= 53 ->
  Math_round (S754_finite s (norm53 p) (Zpos (digits2_pos p) - 53))
  = S754_finite s (norm53 p) (Zpos (digits2_pos p) - 53).
Proof.
  intros HD. unfold Math_round.
  destruct (0 <=? Zpos (digits2_pos p) - 53) eqn:E0; [reflexivity|].
  apply Z.leb_gt in E0.
  rewrite Z.shiftr_div_pow2, Z.shiftl_mul_pow2, Z.mul_1_l by lia.
  rewrite norm53_value by exact HD.
  replace (- (Zpos (digits2_pos p) - 53)) with (53 - Zpos (digits2_pos p))
    by lia.
  set (d := 53 - Zpos (digits2_pos p)) in *.
  assert (2 ^ d = 2 * 2 ^ (d - 1)) as E2.
  { replace d with (1 + (d - 1)) at 1 by lia.
    rewrite Z.pow_add_r by lia. reflexivity. }
  assert (0 < 2 ^ (d - 1)) as P by (apply Z.pow_pos_nonneg; lia).
  assert ((cond_Zopp s (Zpos p * 2 ^ d) + 2 ^ (d - 1)) / 2 ^ d
          = cond_Zopp s (Zpos p)) as ->.
  { symmetry. apply Z.div_unique with (r := 2 ^ (d - 1)); [lia|].
    rewrite <- cond_Zopp_mul. ring. }
  destruct s; cbn [cond_Zopp Z.opp binary_normalize];
    apply binary_round_small, HD.
Qed.

(** A whole number of dollars of either sign converts to a hundred
    times as many cents. *)
Lemma toCents_canonical s p :
  Zpos p * 100 < 2 ^ 53 ->
  App.toCents (S754_finite s (norm53 p) (Zpos (digits2_pos p) - 53))
  = S754_finite s (norm53 (p * 100)) (Zpos (digits2_pos (p * 100)) - 53).
Proof.
  intros H. unfold App.toCents.
  assert (of_Z 100
          = S754_finite false (norm53 100) (Zpos (digits2_pos 100) - 53))
    as -> by reflexivity.
  rewrite mul_canonical by exact H.
  rewrite xorb_false_r.
  apply Math_round_canonical, digits2_pos_le.
  rewrite Pos2Z.inj_mul. exact H.
Qed.

Lemma toCents_of_Z z :
  Z.abs z * 100 < 2 ^ 53 -> App.toCents (of_Z z) = of_Z (100 * z).
Proof.
  intros H. assert (2 ^ 53 = 9007199254740992) as E53 by reflexivity.
  destruct z as [|p|p]; [reflexivity| |].
  - rewrite of_Z_pos, toCents_canonical by (cbn [Z.abs] in H; lia).
    replace (100 * Zpos p) with (Zpos (p * 100)) by lia.
    rewrite of_Z_pos by (cbn [Z.abs] in H; lia). reflexivity.
  - rewrite of_Z_neg, toCents_canonical by (cbn [Z.abs] in H; lia).
    replace (100 * Zneg p) with (Zneg (p * 100)) by lia.
    rewrite of_Z_neg by (cbn [Z.abs] in H; lia). reflexivity.
Qed.

(** Under the default configuration the licence fee of a whole axle
    count of either sign is 57200 cents times the count. *)
Lemma default_licence_fee_any_axles (input : CalcInput) (n : Z) :
  axles input = of_Z n -> Z.abs n < 2 ^ 36 ->
  c_licenceFee (App.consts input App.DEFAULTS) = of_Z (57200 * n).
Proof.
  intros Ha Hn. expose_consts. rewrite Ha.
  cbn [Cfg.licencePerAxle App.DEFAULTS].
  assert (2 ^ 36 = 68719476736) as E36 by reflexivity.
  assert (2 ^ 53 = 9007199254740992) as E53 by reflexivity.
  assert (of_Z 572
          = S754_finite false (norm53 572) (Zpos (digits2_pos 572) - 53))
    as E572 by reflexivity.
  destruct n as [|p|p]; [reflexivity| |]; cbn [Z.abs] in Hn.
  - rewrite E572, of_Z_pos, mul_canonical by lia.
    rewrite toCents_canonical by lia.
    replace (57200 * Zpos p) with (Zpos (572 * p * 100)) by lia.
    rewrite of_Z_pos by lia. reflexivity.
  - rewrite E572, of_Z_neg, mul_canonical by lia.
    rewrite toCents_canonical by lia.
    replace (57200 * Zneg p) with (Zneg (572 * p * 100)) by lia.
    rewrite of_Z_neg by lia. reflexivity.
Qed.

End AsGiven.

Section SignsKept.

Lemma mul_signed s x c : signed s x -> finite_pos c -> signed s (x * c)%num.
Proof.
  destruct c as [|?| |[] mc ec]; try contradiction; intros Hx _.
  destruct x as [sx|sx| |sx m e]; cbn [signed] in Hx; try contradiction;
    subst sx.
  - cbn. apply xorb_false_r.
  - cbn. apply xorb_false_r.
  - unfold mul, SFmul. rewrite xorb_false_r.
    apply binary_round_aux_signed; lia.
Qed.

Lemma div_signed s x c : signed s x -> finite_pos c -> signed s (x / c)%num.
Proof.
  destruct c as [|?| |[] mc ec]; try contradiction; intros Hx _.
  destruct x as [sx|sx| |sx m e]; cbn [signed] in Hx; try contradiction;
    subst sx.
  - cbn. apply xorb_false_r.
  - cbn. apply xorb_false_r.
  - unfold div, SFdiv, SFdiv_core_binary. rewrite xorb_false_r.
    match goal with
    | |- context [Z.div_eucl ?a ?b] =>
        pose proof (Z.div_pos a b) as Hq; unfold Z.div in Hq;
        destruct (Z.div_eucl a b) as [q r] eqn:E
    end.
    apply binary_round_aux_signed, Hq; [|lia].
    match goal with
    | |- 0 <= match ?t with _ => _ end => destruct t; try lia
    end.
    apply Z.shiftl_nonneg; lia.
Qed.

Lemma Math_round_signed s x : signed s x -> signed s (Math_round x).
Proof.
  destruct x as [sx|sx| |sx m e]; cbn [signed]; try tauto.
  intros ->. unfold Math_round.
  destruct (0 <=? e) eqn:E0; [reflexivity|].
  apply Z.leb_gt in E0.
  rewrite Z.shiftr_div_pow2, Z.shiftl_mul_pow2, Z.mul_1_l by lia.
  assert (2 ^ (- e) = 2 * 2 ^ (- e - 1)) as E2.
  { replace (- e) with (1 + (- e - 1)) at 1 by lia.
    rewrite Z.pow_add_r by lia. reflexivity. }
  assert (0 < 2 ^ (- e - 1)) as P by (apply Z.pow_pos_nonneg; lia).
  set (h := 2 ^ (- e - 1)) in *. rewrite E2.
  destruct s; cbn [cond_Zopp].
  - assert ((- Zpos m + h) / (2 * h) < 1) as Hn
      by (apply Z.div_lt_upper_bound; lia).
    destruct ((- Zpos m + h) / (2 * h)) as [|q|q]; try lia;
      cbn [binary_normalize]; [reflexivity | apply binary_round_signed].
  - assert (0 <= (Zpos m + h) / (2 * h)) as Hn by (apply Z.div_pos; lia).
    destruct ((Zpos m + h) / (2 * h)) as [|q|q]; try lia;
      cbn [binary_normalize]; [reflexivity | apply binary_round_signed].
Qed.

(** A number below zero: a negative finite number or [-Infinity]. *)
Lemma ltb_zero_cases x :
  ltb x (of_Z 0) = true ->
  x = S754_infinity true \/ exists m e, x = S754_finite true m e.
Proof.
  destruct x as [s|[]| |[] m e]; try discriminate; intros _;
    [left; reflexivity | right; eauto].
Qed.

Lemma add_neg_signed x y :
  ltb x (of_Z 0) = true -> signed true y \/ y = of_Z 0 ->
  signed true (x + y)%num.
Proof.
  intros Hx Hy.
  destruct (ltb_zero_cases x Hx) as [-> | (m & e & ->)];
    destruct Hy as [Hy | ->]; try reflexivity;
    destruct y as [sy|sy| |sy my ey]; cbn [signed] in Hy;
    try contradiction; subst; try reflexivity.
  unfold add; cbn [SFadd cond_Zopp].
  match goal with
  | |- signed true (binary_normalize _ _ (?a + ?b) _ _) =>
      assert (a + b < 0) as Hneg by lia;
      destruct (a + b) as [|q|q]; try lia
  end.
  cbn [binary_normalize]. apply binary_round_signed.
Qed.

Lemma Math_min_neg_pos x c :
  signed true x -> finite_pos c -> Math_min x c = x.
Proof.
  destruct c as [|?| |[] mc ec]; try contradiction; intros Hx _.
  destruct x as [sx|sx| |sx m e]; cbn [signed] in Hx; try contradiction;
    subst sx; reflexivity.
Qed.

End SignsKept.

(** Under the default configuration a price whose cent amount is below
    zero gives a GST, a dutiable value and a duty with the sign bit set:
    negative or [-0], never raised to [+0] or above. *)
Lemma negative_price_kept (input : CalcInput) :
  ltb (App.toCents (priceExGst input)) (of_Z 0) = true ->
  let o := App.calculate input None in
  (includeGstInDuty input = true -> signed true (gst o)) /\
  signed true (dutiable o) /\ signed true (duty o).
Proof.
  intros HP. expose_consts. cbn [App.cfg_or_default].
  change (Cfg.gstRate App.DEFAULTS) with (dec 10 2).
  change (Cfg.dutyRate App.DEFAULTS) with (dec 3 2).
  change (App.toCents (Cfg.dutyCap App.DEFAULTS)) with (of_Z 1200000).
  set (P := App.toCents (priceExGst input)) in *.
  assert (finite_pos (dec 10 2)) as F10 by exact I.
  assert (finite_pos (dec 3 2)) as F3 by exact I.
  assert (finite_pos (of_Z 100)) as F100 by exact I.
  assert (signed true P) as SP
    by (destruct (ltb_zero_cases P HP) as [-> | (m & e & ->)]; reflexivity).
  assert (signed true (Math_round (P * dec 10 2))) as Sg
    by (apply Math_round_signed, mul_signed; assumption).
  set (g := if includeGstInDuty input then Math_round (P * dec 10 2)
            else of_Z 0).
  assert (signed true g \/ g = of_Z 0) as Hg
    by (unfold g; destruct (includeGstInDuty input);
        [left; exact Sg | right; reflexivity]).
  assert (signed true (P + g)%num) as Sd
    by (apply add_neg_signed; assumption).
  assert (signed true (Math_round ((P + g) * dec 3 2))) as Sr
    by (apply Math_round_signed, mul_signed; assumption).
  split; [|split].
  - intros Hi. unfold g in *. rewrite Hi in *.
    apply div_signed; assumption.
  - apply div_signed; assumption.
  - apply div_signed; [|exact F100].
    destruct (applyDutyCap input); [|exact Sr].
    rewrite Math_min_neg_pos; [exact Sr | exact Sr | exact I].
Qed.

(** A price that is [NaN] is not rejected: the dutiable value, the duty
    and the total are [NaN]; likewise an axle count that is [NaN] gives
    a licence fee, a subtotal and a total that are [NaN]. *)
Lemma nan_passes_through (input : CalcInput) (cfg : option Cfg.t) :
  let o := App.calculate input cfg in
  (priceExGst input = NaN ->
   dutiable o = NaN /\ duty o = NaN /\ totalOnRoad o = NaN) /\
  (axles input = NaN ->
   licenceFee o = NaN /\ roadRegoSubtotal o = NaN /\ totalOnRoad o = NaN).
Proof.
  expose_consts. set (r := App.cfg_or_default cfg).
  assert (forall x, (x + NaN)%num = NaN) as AddN by (intros []; reflexivity).
  assert (forall x, (x * NaN)%num = NaN) as MulN by (intros []; reflexivity).
  split; intros ->.
  - change (App.toCents NaN) with NaN.
    change (NaN + ?x)%num with NaN.
    change (NaN * ?x)%num with NaN.
    change (Math_round NaN) with NaN.
    change (Math_min NaN ?x) with NaN.
    change (App.fromCents NaN) with NaN.
    assert ((if applyDutyCap input then NaN else NaN) = NaN) as ->
      by (destruct (applyDutyCap input); reflexivity).
    rewrite AddN. repeat split; reflexivity.
  - rewrite MulN.
    change (App.toCents NaN) with NaN.
    repeat change (NaN + ?x)%num with NaN.
    change (App.fromCents NaN) with NaN.
    repeat split; reflexivity.
Qed.

(** The returned amounts of small inputs under a small configuration
    are finite. *)
Lemma calculate_small (input : CalcInput) (cfg : option Cfg.t) :
  input_small 200 input -> cfg_small 200 (App.cfg_or_default cfg) ->
  all_fields (fun x => is_finite x = true /\ small 971 x)
    (App.calculate input cfg).
Proof.
  intros Hi Hc.
  destruct (consts_small input _ Hi Hc)
    as (H1 & H2 & H3 & H4 & H5 & H6 & H7 & H8 & H9 & H10 & H11 & H12).
  assert (forall x, small 720 x ->
                    is_finite (App.fromCents x) = true
                    /\ small 971 (App.fromCents x)) as F.
  { intros x Hx.
    assert (small 971 (App.fromCents x)) as H
      by (apply (fromCents_small 720); [exact Hx | lia | lia]).
    split; [apply (small_is_finite 971), H | exact H]. }
  unfold all_fields, App.calculate; cbn [gst dutiable duty licenceFee
    insuranceBase insuranceGst insuranceDuty recordingFee plateFee
    inspectionFee roadRegoSubtotal totalOnRoad].
  repeat (split; [apply F; assumption|]).
  apply F; assumption.
Qed.

Lemma defaults_small : cfg_small 200 App.DEFAULTS.
Proof.
  unfold cfg_small, App.DEFAULTS;
    cbn [Cfg.gstRate Cfg.dutyRate Cfg.dutyCap Cfg.licencePerAxle
         Cfg.recordingFee Cfg.plateFee Cfg.insuranceBase
         Cfg.insuranceGstRate Cfg.insuranceDutyRate Cfg.inspectionInitial
         Cfg.inspectionReinspection].
  assert (forall x m e, x = S754_finite false m e ->
                        (Zpos m ?= 2 ^ 53) = Lt -> (e ?= 200) = Lt ->
                        small 200 x) as H
    by (intros x m e -> Hm He; split;
        [exact Hm | apply Z.lt_le_incl; exact He]).
  repeat (split; [eapply H; [vm_compute; reflexivity
                            | reflexivity | reflexivity]|]).
  eapply H; [vm_compute; reflexivity | reflexivity | reflexivity].
Qed.

(** C9.  [calculate] is defined on every input and configuration, and
    none of its operations rejects an operand.  For every input and
    configuration whose numbers are finite with an exponent of at most
    200 (a magnitude below 2^253: negative, zero and fractional prices
    and axle counts included), all twelve returned fields are finite
    numbers: no operation overflows or yields [NaN].  The default
    configuration is such a configuration.  Nothing is validated: a
    price or axle count that is [NaN] is carried to the total.  Nothing
    is clamped: a whole price of either sign is converted to a hundred
    times as many cents, a price below zero gives a GST, a dutiable
    value and a duty that are negative or [-0], and under the default
    configuration a whole axle count of either sign, zero and counts
    above nine included, gives a licence fee of 57200 cents times the
    count. *)
Theorem calculate_total_no_clamping :
  (forall (input : CalcInput) (cfg : option Cfg.t),
     input_small 200 input -> cfg_small 200 (App.cfg_or_default cfg) ->
     all_fields (fun x => is_finite x = true /\ small 971 x)
       (App.calculate input cfg)) /\
  cfg_small 200 App.DEFAULTS /\
  (forall (input : CalcInput) (cfg : option Cfg.t),
     let o := App.calculate input cfg in
     (priceExGst input = NaN ->
      dutiable o = NaN /\ duty o = NaN /\ totalOnRoad o = NaN) /\
     (axles input = NaN ->
      licenceFee o = NaN /\ roadRegoSubtotal o = NaN /\
      totalOnRoad o = NaN)) /\
  (forall (input : CalcInput) (cfg : option Cfg.t) (p : Z),
     priceExGst input = of_Z p -> Z.abs p * 100 < 2 ^ 53 ->
     c_P (App.consts input (App.cfg_or_default cfg)) = of_Z (100 * p)) /\
  (forall input : CalcInput,
     ltb (App.toCents (priceExGst input)) (of_Z 0) = true ->
     let o := App.calculate input None in
     (includeGstInDuty input = true -> signed true (gst o)) /\
     signed true (dutiable o) /\ signed true (duty o)) /\
  (forall (input : CalcInput) (n : Z),
     axles input = of_Z n -> Z.abs n < 2 ^ 36 ->
     c_licenceFee (App.consts input App.DEFAULTS) = of_Z (57200 * n) /\
     licenceFee (App.calculate input None)
       = App.fromCents (of_Z (57200 * n))) /\
  licenceFee (App.calculate (with_axles 0 tc1) None) = of_Z 0 /\
  licenceFee (App.calculate (with_axles 1 tc1) None) = of_Z 572 /\
  licenceFee (App.calculate (with_axles 9 tc1) None) = of_Z 5148 /\
  licenceFee (App.calculate (with_axles 12 tc1) None) = of_Z 6864 /\
  licenceFee (App.calculate (with_axles (-2) tc1) None) = of_Z (-1144) /\
  gst (App.calculate (with_price (of_Z (-100)) tc1) None) = of_Z (-10) /\
  dutiable (App.calculate (with_price (of_Z (-100)) tc1) None)
    = of_Z (-110) /\
  duty (App.calculate (with_price (of_Z (-100)) tc1) None) = dec (-330) 2 /\
  totalOnRoad (App.calculate (with_price (of_Z (-100)) tc1) None)
    = dec 175515 2 /\
  gst (App.calculate (with_price NaN tc1) None) = NaN /\
  totalOnRoad (App.calculate (with_price NaN tc1) None) = NaN /\
  licenceFee (App.calculate (with_price NaN tc1) None) = of_Z 1716 /\
  dutiable (App.calculate (with_price Infinity tc1) None) = Infinity /\
  duty (App.calculate (with_price Infinity tc1) None) = of_Z 12000.
Proof.
  split; [exact calculate_small|].
  split; [exact defaults_small|].
  split; [exact nan_passes_through|].
  split.
  { intros input cfg p Hp Hb. expose_consts. rewrite Hp.
    apply toCents_of_Z, Hb. }
  split; [exact negative_price_kept|].
  split.
  { intros input n Ha Hn.
    pose proof (default_licence_fee_any_axles input n Ha Hn) as H.
    split; [exact H|].
    unfold App.calculate; cbn [licenceFee App.cfg_or_default].
    rewrite H. reflexivity. }
  vm_compute; repeat split; reflexivity.
Qed.

Lemma calculate_total_no_clamping_witness :
  all_fields (fun x => is_finite x = true /\ small 971 x)
    (App.calculate (with_price (of_Z (-100)) (with_axles 12 tc1)) None) /\
  c_P (App.consts (with_price (of_Z (-100)) tc1) App.DEFAULTS)
    = of_Z (100 * -100) /\
  signed true (duty (App.calculate (with_price (of_Z (-100)) tc1) None)) /\
  c_licenceFee (App.consts (with_axles 12 tc1) App.DEFAULTS)
    = of_Z (57200 * 12).
Proof.
  destruct calculate_total_no_clamping
    as (T1 & T1' & _ & T3 & T4 & T5 & _).
  split; [|split; [|split]].
  - apply T1.
    + split; vm_compute; split; congruence.
    + apply T1'.
  - apply (T3 (with_price (of_Z (-100)) tc1) None (-100)).
    + reflexivity.
    + vm_compute; reflexivity.
  - apply (T4 (with_price (of_Z (-100)) tc1)). vm_compute; reflexivity.
  - apply (T5 (with_axles 12 tc1) 12).
    + reflexivity.
    + vm_compute; reflexivity.
Defined.

(** C10. The two copies of [calculate] agree on every input and
    configuration, and so do their default configurations. *)
Theorem calculate_copies_agree (input : CalcInput) (cfg : option Cfg.t) :
  App.calculate input cfg = Mvp.calculate input cfg /\
  App.DEFAULTS = Mvp.DEFAULTS.
Proof.
  split; [|reflexivity].
  unfold App.calculate, Mvp.calculate, App.consts, Mvp.consts,
    App.cfg_or_default, Mvp.cfg_or_default, App.toCents, Mvp.toCents,
    App.fromCents, Mvp.fromCents.
  reflexivity.
Qed.

(** * The component: the axle count

    Order facts about the comparison of numbers, [Math.min] and
    [Math.max]. *)

Section Order.

Lemma SFcompare_antisym x y :
  SFcompare y x = option_map CompOpp (SFcompare x y).
Proof.
  destruct x as [sx|sx| |sx mx ex], y as [sy|sy| |sy my ey];
    try reflexivity;
    try (destruct sx; reflexivity); try (destruct sy; reflexivity);
    try (destruct sx, sy; reflexivity).
  assert (Pos.compare_cont Eq my mx = CompOpp (Pos.compare_cont Eq mx my))
    as Hm by (rewrite (Pos.compare_cont_antisym mx my Eq); reflexivity).
  destruct sx, sy; cbn [SFcompare option_map]; try reflexivity;
    rewrite (Z.compare_antisym ex ey), Hm;
    destruct (ex ?= ey), (Pos.compare_cont Eq mx my); reflexivity.
Qed.

Lemma SFcompare_total x y :
  x <> NaN -> y <> NaN -> exists c, SFcompare x y = Some c.
Proof.
  intros Hx Hy.
  destruct x as [sx|sx| |sx mx ex], y as [sy|sy| |sy my ey];
    try (now elim Hx); try (now elim Hy); eexists; reflexivity.
Qed.

Lemma leb_refl x : x <> NaN -> leb x x = true.
Proof.
  intros H; unfold leb, SFleb. rewrite SFcompare_refl by exact H. reflexivity.
Qed.


Lemma Math_min_not_NaN x y : x <> NaN -> y <> NaN -> Math_min x y <> NaN.
Proof.
  intros Hx Hy; unfold Math_min.
  destruct (SFcompare_total x y Hx Hy) as [c ->].
  destruct c; try assumption.
  destruct x, y; try assumption; discriminate.
Qed.

Lemma Math_min_le_l x y :
  x <> NaN -> y <> NaN -> leb (Math_min x y) x = true.
Proof.
  intros Hx Hy; unfold Math_min.
  pose proof (SFcompare_antisym x y) as A.
  destruct (SFcompare x y) as [[]|] eqn:C; cbn [option_map CompOpp] in A.
  - destruct x as [sx|sx| |sx mx ex], y as [sy|sy| |sy my ey];
      try (apply leb_refl; assumption); reflexivity.
  - apply leb_refl, Hx.
  - unfold leb, SFleb. rewrite A. reflexivity.
  - destruct (SFcompare_total x y Hx Hy) as [c Hc]. congruence.
Qed.

Lemma Math_max_ge_l x y :
  x <> NaN -> y <> NaN -> leb x (Math_max x y) = true.
Proof.
  intros Hx Hy; unfold Math_max.
  destruct (SFcompare x y) as [[]|] eqn:C.
  - destruct x as [sx|sx| |sx mx ex], y as [sy|sy| |sy my ey];
      try (apply leb_refl; assumption); reflexivity.
  - unfold leb, SFleb. rewrite C. reflexivity.
  - apply leb_refl, Hx.
  - destruct (SFcompare_total x y Hx Hy) as [c Hc]. congruence.
Qed.

Lemma Math_max_le x y z :
  leb x z = true -> leb y z = true -> leb (Math_max x y) z = true.
Proof.
  intros Hx Hy; unfold Math_max.
  destruct (SFcompare x y) as [[]|] eqn:C; try assumption.
  - destruct x as [sx|sx| |sx mx ex], y as [sy|sy| |sy my ey];
      assumption.
  - destruct x, y; try discriminate; try (destruct z; discriminate).
Qed.

(** [Math.max(1, Math.min(9, w))] is between 1 and 9 unless [w] is
    [NaN]. *)
Lemma clamp_bounds w :
  w <> NaN ->
  leb (of_Z 1) (Math_max (of_Z 1) (Math_min (of_Z 9) w)) = true /\
  leb (Math_max (of_Z 1) (Math_min (of_Z 9) w)) (of_Z 9) = true.
Proof.
  intros Hw.
  assert (of_Z 9 <> NaN) as H9 by discriminate.
  assert (of_Z 1 <> NaN) as H1 by discriminate.
  pose proof (Math_min_not_NaN _ _ H9 Hw) as Hm.
  split.
  - apply Math_max_ge_l; assumption.
  - apply Math_max_le; [vm_compute; reflexivity|].
    apply Math_min_le_l; assumption.
Qed.

Lemma or_else_not_NaN v d : d <> NaN -> or_else v d <> NaN.
Proof. intros Hd; unfold or_else; destruct v; try discriminate; exact Hd. Qed.

Lemma Math_max_finite_l s m e y :
  match SFcompare (S754_finite s m e) y with
  | Some Lt => Math_max (S754_finite s m e) y = y
  | Some _ => Math_max (S754_finite s m e) y = S754_finite s m e
  | None => y = NaN
  end.
Proof.
  unfold Math_max.
  destruct (SFcompare (S754_finite s m e) y) as [[]|] eqn:C;
    try reflexivity.
  destruct y; try reflexivity; destruct s; discriminate.
Qed.

Lemma Math_min_finite_l s m e y :
  match SFcompare (S754_finite s m e) y with
  | Some Gt => Math_min (S754_finite s m e) y = y
  | Some _ => Math_min (S754_finite s m e) y = S754_finite s m e
  | None => y = NaN
  end.
Proof.
  unfold Math_min.
  destruct (SFcompare (S754_finite s m e) y) as [[]|] eqn:C;
    try reflexivity.
  destruct y; try reflexivity; destruct s; discriminate.
Qed.

Lemma one_bits : of_Z 1 = S754_finite false 4503599627370496 (-52).
Proof. vm_compute; reflexivity. Qed.

Lemma nine_bits : of_Z 9 = S754_finite false 5066549580791808 (-49).
Proof. vm_compute; reflexivity. Qed.

End Order.

(** X1. The axle count set by the input handler is between 1 and 9
    for every number entered, [NaN], zero, negative numbers and the
    infinities included. *)
Theorem onChangeAxles_range (v : number) :
  leb (of_Z 1) (onChangeAxles v) = true /\
  leb (onChangeAxles v) (of_Z 9) = true.
Proof.
  unfold onChangeAxles. apply clamp_bounds, or_else_not_NaN. discriminate.
Qed.

(** X2. A number already between 1 and 9 is left as it is, whole or
    not: the handler does not round the axle count. *)
Theorem onChangeAxles_fixed (v : number) :
  leb (of_Z 1) v = true -> leb v (of_Z 9) = true ->
  eqb (onChangeAxles v) v = true.
Proof.
  intros L U; unfold onChangeAxles.
  assert (or_else v (of_Z 1) = v) as ->
    by (unfold or_else; destruct v; try reflexivity; discriminate).
  assert (v <> NaN) as Hv by (intros ->; discriminate).
  unfold leb, SFleb in L, U.
  pose proof (SFcompare_antisym v (of_Z 9)) as A.
  pose proof (Math_min_finite_l false 5066549580791808 (-49) v) as Hmin.
  pose proof (Math_max_finite_l false 4503599627370496 (-52) v) as Hmax.
  rewrite <- nine_bits in Hmin. rewrite <- one_bits in Hmax.
  unfold eqb, SFeqb.
  destruct (SFcompare v (of_Z 9)) as [[]|] eqn:C9; try discriminate;
    rewrite A in Hmin; cbn [option_map CompOpp] in Hmin; rewrite Hmin.
  - change (Math_max (of_Z 1) (of_Z 9)) with (of_Z 9).
    rewrite A. reflexivity.
  - destruct (SFcompare (of_Z 1) v) as [[]|] eqn:C1; try discriminate;
      rewrite Hmax.
    + rewrite C1. reflexivity.
    + rewrite SFcompare_refl by exact Hv. reflexivity.
Qed.

Lemma onChangeAxles_fixed_witness :
  eqb (onChangeAxles (dec 25 1)) (dec 25 1) = true.
Proof.
  apply (onChangeAxles_fixed (dec 25 1)); vm_compute; reflexivity.
Defined.

(** X3. An entry that is zero or not a number, and every number up to 1,
    sets one axle; every number from 9 up, [Infinity] included, sets
    nine. *)
Theorem onChangeAxles_saturates (v : number) :
  (ToBoolean v = false -> onChangeAxles v = of_Z 1) /\
  (leb v (of_Z 1) = true -> onChangeAxles v = of_Z 1) /\
  (leb (of_Z 9) v = true -> onChangeAxles v = of_Z 9).
Proof.
  unfold onChangeAxles, or_else.
  split; [intros ->; vm_compute; reflexivity|].
  split; intros H.
  - destruct v as [s|[]| |[] m e]; try discriminate;
      try (vm_compute; reflexivity); cbn [ToBoolean];
      rewrite nine_bits.
    pose proof (Math_min_finite_l false 5066549580791808 (-49)
                  (S754_finite false m e)) as Hmin.
    rewrite one_bits in H. unfold leb, SFleb in H.
    cbn [SFcompare] in H, Hmin.
    destruct (e ?= -52) eqn:Ce; cbv beta iota in H; try discriminate.
    + apply Z.compare_eq in Ce. subst e.
      change (-49 ?= -52) with Gt in Hmin. rewrite Hmin.
      pose proof (Math_max_finite_l false 4503599627370496 (-52)
                    (S754_finite false m (-52))) as Hmax.
      cbn [SFcompare] in Hmax. rewrite Z.compare_refl in Hmax.
      rewrite Pos.compare_cont_spec in H, Hmax.
      rewrite (Pos.compare_antisym m) in Hmax.
      rewrite one_bits.
      destruct (Pos.compare m 4503599627370496);
        cbn [Pos.switch_Eq CompOpp] in H, Hmax;
        try discriminate; exact Hmax.
    + assert (e < -52) as Le by (apply Z.compare_lt_iff; exact Ce).
      assert ((-49 ?= e) = Gt) as C49 by (apply Z.compare_gt_iff; lia).
      rewrite C49 in Hmin. rewrite Hmin.
      pose proof (Math_max_finite_l false 4503599627370496 (-52)
                    (S754_finite false m e)) as Hmax.
      cbn [SFcompare] in Hmax.
      rewrite Z.compare_antisym, Ce in Hmax.
      rewrite one_bits. exact Hmax.
  - assert (ToBoolean v = true) as ->
      by (destruct v as [s|[]| |[] m e]; try reflexivity; discriminate).
    pose proof (Math_min_finite_l false 5066549580791808 (-49) v) as Hmin.
    rewrite <- nine_bits in Hmin.
    unfold leb, SFleb in H.
    destruct (SFcompare (of_Z 9) v) as [[]|]; try discriminate;
      rewrite Hmin; vm_compute; reflexivity.
Qed.

Lemma onChangeAxles_saturates_witness :
  onChangeAxles NaN = of_Z 1 /\ onChangeAxles (dec 5 1) = of_Z 1 /\
  onChangeAxles Infinity = of_Z 9.
Proof.
  split; [apply (proj1 (onChangeAxles_saturates NaN)); reflexivity|].
  split; [apply (proj1 (proj2 (onChangeAxles_saturates (dec 5 1))));
          vm_compute; reflexivity|].
  apply (proj2 (proj2 (onChangeAxles_saturates Infinity))).
  vm_compute; reflexivity.
Defined.

(** * The component: the price text *)

Section Parsing.

Lemma strip_app s1 s2 : strip (s1 ++ s2) = (strip s1 ++ strip s2)%string.
Proof.
  induction s1 as [|c s1 IH]; [reflexivity|].
  cbn [append strip]. destruct (is_digit c || is_dot c); cbn [append];
    rewrite IH; reflexivity.
Qed.


Lemma Number_numeric_nonneg_or_NaN s :
  Number_numeric s = NaN \/ ge0 (Number_numeric s) = true.
Proof.
  unfold Number_numeric. destruct s as [|c s]; [right; reflexivity|].
  destruct (scan (String c s) 0 0 false 0) as [[[n k] [|nd]]|];
    try (left; reflexivity).
  right. destruct n as [|p]; [reflexivity|].
  cbn [of_decimal].
  apply (div_nonneg_pos (S754_finite false p 0)
           (S754_finite false (Z.to_pos (10 ^ Z.of_nat k)) 0));
    [reflexivity | exact I].
Qed.

Lemma scan_no_digit s :
  has_digit s = false ->
  forall n k dot,
    scan s n k dot 0 = None \/ scan s n k dot 0 = Some (n, k, 0%nat).
Proof.
  induction s as [|c s IH]; intros H n k dot; [right; reflexivity|].
  cbn [has_digit] in H. apply orb_false_iff in H as [Hc Hs].
  cbn [scan]. rewrite Hc.
  destruct (is_dot c); [|left; reflexivity].
  destruct dot; [left; reflexivity|]. apply IH, Hs.
Qed.

Lemma has_digit_strip s : has_digit (strip s) = has_digit s.
Proof.
  induction s as [|c s IH]; [reflexivity|].
  cbn [strip has_digit].
  destruct (is_digit c) eqn:D; cbn [orb has_digit]; [rewrite D; reflexivity|].
  destruct (is_dot c); cbn [has_digit]; [rewrite D|]; exact IH.
Qed.

Lemma all_digits_strip s : all_digits s = true -> strip s = s.
Proof.
  induction s as [|c s IH]; [reflexivity|].
  cbn [all_digits strip]. intros H. apply andb_true_iff in H as [Hc Hs].
  rewrite Hc, IH by exact Hs. reflexivity.
Qed.

Lemma scan_all_digits s :
  all_digits s = true ->
  forall n nd,
    scan s n 0 false nd = Some (digits_value n s, 0%nat, (nd + String.length s)%nat).
Proof.
  induction s as [|c s IH]; intros H n nd.
  - cbn. rewrite Nat.add_0_r. reflexivity.
  - cbn [all_digits] in H. apply andb_true_iff in H as [Hc Hs].
    cbn [scan digits_value String.length]. rewrite Hc, IH by exact Hs.
    rewrite Nat.add_succ_r. reflexivity.
Qed.

(** Dividing an integer of at most 53 bits by one is exact. *)
Lemma div_one_exact p :
  Zpos p < 2 ^ 53 ->
  SFdiv prec emax (S754_finite false p 0) (S754_finite false 1 0)
  = of_Z (Zpos p).
Proof.
  intros H. pose proof (digits2_pos_le p 53 H) as HD.
  rewrite of_Z_pos by exact H.
  unfold SFdiv, SFdiv_core_binary. cbn [xorb Zdigits2 digits2_pos].
  set (D := Zpos (digits2_pos p)) in *.
  assert (0 < D) by (unfold D; lia).
  replace (D + 0 - (1 + 0)) with (D - 1) by lia.
  rewrite fexp_small by lia.
  rewrite Z.sub_0_r, Z.min_l by lia.
  replace (0 - (D - 1 - 53)) with (54 - D) by lia.
  destruct (54 - D) as [|j|j] eqn:Ej; try lia.
  cbn [Z.shiftl].
  assert (Pos.iter (Z.mul 2) (Zpos p) j = Zpos (Pos.iter xO p j)) as ->.
  { clear. induction j as [|j IH] using Pos.peano_ind.
    - reflexivity.
    - rewrite !Pos.iter_succ, IH. reflexivity. }
  assert (Z.div_eucl (Zpos (Pos.iter xO p j)) 1
          = (Zpos (Pos.iter xO p j), 0)) as ->.
  { pose proof (Z.div_1_r (Zpos (Pos.iter xO p j))) as Hq.
    pose proof (Z.mod_1_r (Zpos (Pos.iter xO p j))) as Hr.
    unfold Z.div, Z.modulo in Hq, Hr.
    destruct (Z.div_eucl (Zpos (Pos.iter xO p j)) 1) as [q r].
    subst; reflexivity. }
  change (new_location 1 0) with loc_Exact.
  assert (Pos.iter xO p j = Pos.iter xO (norm53 p) 1) as ->.
  { unfold norm53. fold D.
    destruct (53 - D) as [|d|d] eqn:E'; try lia.
    - f_equal; lia.
    - rewrite <- Pos.iter_add. f_equal; lia. }
  replace (D - 1 - 53) with (D - 53 - Zpos 1) by lia.
  apply binary_round_aux_shift;
    [apply norm53_canonical; exact HD | unfold emax, prec; lia].
Qed.

(** [x || 0] is [>= 0] when [x] is [NaN] or [>= 0]. *)
Lemma or_else_zero_ge0 x :
  x = NaN \/ ge0 x = true -> ge0 (or_else x (of_Z 0)) = true.
Proof.
  unfold or_else. intros [-> | H]; [reflexivity|].
  destruct (ToBoolean x); [exact H | reflexivity].
Qed.

End Parsing.

(** X4. A character that is neither a digit nor a dot has no effect on the
    parsed price, wherever it stands: currency signs, separators,
    blanks, letters and minus signs are ignored. *)
Theorem parsedPrice_ignores_other_characters (s1 s2 : string) (c : ascii) :
  is_digit c = false -> is_dot c = false ->
  parsedPrice (s1 ++ String c s2) = parsedPrice (s1 ++ s2).
Proof.
  intros Hd Hp; unfold parsedPrice.
  rewrite !strip_app. cbn [strip]. rewrite Hd, Hp. reflexivity.
Qed.

Lemma parsedPrice_ignores_other_characters_witness :
  parsedPrice ("$75" ++ String "," "000") = parsedPrice ("$75" ++ "000").
Proof.
  apply (parsedPrice_ignores_other_characters "$75" "000" ","); reflexivity.
Defined.

(** X5. A text without any digit gives the price zero: the empty
    text, a dot alone, letters only. *)
Theorem parsedPrice_without_digits (text : string) :
  has_digit text = false -> parsedPrice text = of_Z 0.
Proof.
  intros H; unfold parsedPrice, Number_numeric.
  rewrite <- has_digit_strip in H.
  destruct (strip text) as [|c s]; [reflexivity|].
  destruct (scan_no_digit _ H 0%N 0%nat false) as [-> | ->]; reflexivity.
Qed.

Lemma parsedPrice_without_digits_witness : parsedPrice "-.e" = of_Z 0.
Proof. apply (parsedPrice_without_digits "-.e"). reflexivity. Defined.

(** X6. A text of digits whose value is below 2^53 is read exactly:
    the price is that whole number. *)
Theorem parsedPrice_whole_number (text : string) :
  all_digits text = true -> (digits_value 0 text < 2 ^ 53)%N ->
  parsedPrice text = of_Z (Z.of_N (digits_value 0 text)).
Proof.
  intros Hd Hv; unfold parsedPrice, Number_numeric.
  rewrite all_digits_strip by exact Hd.
  destruct text as [|c s]; [reflexivity|].
  rewrite scan_all_digits by exact Hd.
  cbn [Nat.add String.length].
  destruct (digits_value 0 (String c s)) as [|p]; [reflexivity|].
  cbn [of_decimal Z.of_N].
  change (Z.to_pos (10 ^ Z.of_nat 0)) with 1%positive.
  rewrite div_one_exact by (change (2 ^ 53) with 9007199254740992; lia).
  rewrite of_Z_pos by (change (2 ^ 53) with 9007199254740992; lia).
  reflexivity.
Qed.

Lemma parsedPrice_whole_number_witness :
  parsedPrice "75000" = of_Z (Z.of_N (digits_value 0 "75000")).
Proof.
  apply (parsedPrice_whole_number "75000"); [reflexivity|].
  vm_compute; reflexivity.
Defined.

(** * The component: every reachable state *)

Lemma leb_one_ge0 x : leb (of_Z 1) x = true -> ge0 x = true.
Proof. destruct x as [s|[]| |[] m e]; try reflexivity; discriminate. Qed.

(** The output fields are [>= 0] for any price and axle count
    [>= 0], whole or not. *)
Lemma calculate_nonneg (input : CalcInput) :
  ge0 (priceExGst input) = true -> ge0 (axles input) = true ->
  all_fields (fun x => ge0 x = true) (App.calculate input None).
Proof.
  intros Hp Ha.
  destruct (consts_nonneg input Hp Ha)
    as (H1 & H2 & H3 & H4 & H5 & H6 & H7 & H8 & H9 & H10 & H11 & H12).
  unfold all_fields, App.calculate; cbn [gst dutiable duty licenceFee
    insuranceBase insuranceGst insuranceDuty recordingFee plateFee
    inspectionFee roadRegoSubtotal totalOnRoad App.cfg_or_default].
  repeat (split; [apply fromCents_nonneg; assumption|]).
  apply fromCents_nonneg; assumption.
Qed.

Lemma handle_keeps_axles_in_range st ev :
  axles_in_range st -> axles_in_range (handle st ev).
Proof.
  intros H; destruct ev; try exact H; unfold axles_in_range; cbn [handle s_axles].
  - apply clamp_bounds, or_else_not_NaN. discriminate.
  - destruct p; split; vm_compute; reflexivity.
  - split; vm_compute; reflexivity.
Qed.

Lemma run_keeps_axles_in_range evs :
  forall st, axles_in_range st -> axles_in_range (run st evs).
Proof.
  induction evs as [|ev evs IH]; intros st H; [exact H|].
  apply IH, handle_keeps_axles_in_range, H.
Qed.

(** X7. In every state the component can reach, whatever is typed and
    clicked, the axle count is between 1 and 9. *)
Theorem axles_always_in_range (evs : list Event) :
  leb (of_Z 1) (s_axles (run initialState evs)) = true /\
  leb (s_axles (run initialState evs)) (of_Z 9) = true.
Proof.
  apply run_keeps_axles_in_range. split; vm_compute; reflexivity.
Qed.

(** X8. In every reachable state all twelve rendered amounts are [>= 0]
    (never [NaN], never negative), and with the duty cap ticked the
    rendered duty is at most 12000. *)
Theorem rendered_amounts_nonneg_and_capped (evs : list Event) :
  let st := run initialState evs in
  all_fields (fun x => ge0 x = true) (out st) /\
  (if s_applyDutyCap st then leb (duty (out st)) (of_Z 12000) = true
   else True).
Proof.
  cbv zeta. set (st := run initialState evs).
  assert (ge0 (parsedPrice (s_priceExGst st)) = true) as Hp
    by apply or_else_zero_ge0, Number_numeric_nonneg_or_NaN.
  assert (axles_in_range st) as [Ha _]
    by (apply run_keeps_axles_in_range; split; vm_compute; reflexivity).
  split.
  - apply calculate_nonneg; [exact Hp | apply leb_one_ge0, Ha].
  - destruct (s_applyDutyCap st) eqn:Hcap; [|exact I].
    destruct (default_capped_duty (input_of st) Hcap Hp)
      as (d & Bd & _ & Hc).
    unfold out, App.calculate; cbn [duty App.cfg_or_default].
    destruct Hc as [-> | ->];
      [apply fromCents_le_cap, Bd | vm_compute; reflexivity].
Qed.

(** X9. The parsed price is a number [>= 0] for every text: never
    [NaN], never negative. *)
Theorem parsedPrice_nonneg (text : string) :
  ge0 (parsedPrice text) = true /\ parsedPrice text <> NaN.
Proof.
  assert (ge0 (parsedPrice text) = true) as H
    by apply or_else_zero_ge0, Number_numeric_nonneg_or_NaN.
  split; [exact H|].
  intros E. rewrite E in H. discriminate.
Qed.

(** * More properties of [calculate] and of the self tests *)

Section Subtraction.

Lemma binary_round_aux_abs s s' mx ex lx :
  SFabs (binary_round_aux prec emax s mx ex lx)
  = SFabs (binary_round_aux prec emax s' mx ex lx).
Proof.
  unfold binary_round_aux.
  destruct (shr_fexp prec emax mx ex lx) as [mrs' e'].
  destruct (shr_fexp prec emax _ e' loc_Exact) as [mrs'' e''].
  destruct (shr_m mrs'') as [|m|m]; try reflexivity.
  destruct (e'' <=? emax - prec); reflexivity.
Qed.

Lemma binary_normalize_abs_opp m e :
  SFabs (binary_normalize prec emax (- m) e false)
  = SFabs (binary_normalize prec emax m e false).
Proof.
  destruct m as [|p|p]; cbn [Z.opp binary_normalize]; [reflexivity| |];
    unfold binary_round; destruct (shl_align p e _);
    apply binary_round_aux_abs.
Qed.

Lemma sub_abs_sym a b : Math_abs (a - b) = Math_abs (b - a).
Proof.
  unfold Math_abs, sub.
  destruct a as [sa|sa| |sa ma ea], b as [sb|sb| |sb mb eb];
    try reflexivity; try (destruct sa, sb; reflexivity).
  cbn [SFsub]. rewrite (Z.min_comm eb ea).
  rewrite <- binary_normalize_abs_opp. f_equal. f_equal. lia.
Qed.

End Subtraction.

(** X10. The tolerance check of the self tests is symmetric, and false
    whenever an argument is [NaN] or both are the same infinity. *)
Theorem approx_symmetric (a b : number) :
  Mvp.approx a b = Mvp.approx b a /\
  Mvp.approx NaN b = false /\ Mvp.approx a NaN = false /\
  Mvp.approx Infinity Infinity = false.
Proof.
  split; [unfold Mvp.approx; rewrite sub_abs_sym; reflexivity|].
  split; [destruct b; reflexivity|].
  split; [destruct a; reflexivity | reflexivity].
Qed.

Lemma Math_min_eqb_l x y : leb x y = true -> eqb (Math_min x y) x = true.
Proof.
  unfold leb, SFleb, eqb, SFeqb, Math_min.
  destruct (SFcompare x y) as [[]|] eqn:C; try discriminate; intros _.
  - destruct x as [sx|sx| |sx mx ex], y as [sy|sy| |sy my ey];
      try reflexivity; try discriminate;
      rewrite SFcompare_refl by discriminate; reflexivity.
  - assert (x <> NaN) by (intros ->; discriminate).
    rewrite SFcompare_refl by assumption. reflexivity.
Qed.

(** X11. Ticking the duty cap never raises the duty in cents, and leaves it
    as it is when the raw duty does not exceed the cap. *)
Theorem cap_never_raises_duty (input : CalcInput) (cfg : option Cfg.t) :
  let r := App.cfg_or_default cfg in
  let capped := App.consts (with_cap true input) r in
  let uncapped := App.consts (with_cap false input) r in
  c_dutyRaw uncapped <> NaN -> c_dutyCapCents uncapped <> NaN ->
  leb (c_duty capped) (c_duty uncapped) = true /\
  (leb (c_dutyRaw uncapped) (c_dutyCapCents uncapped) = true ->
   eqb (c_duty capped) (c_duty uncapped) = true).
Proof.
  expose_consts. cbn [with_cap applyDutyCap priceExGst includeGstInDuty].
  intros Hr Hc. split.
  - apply Math_min_le_l; assumption.
  - apply Math_min_eqb_l.
Qed.

Lemma cap_never_raises_duty_witness :
  leb (c_duty (App.consts (with_cap true tc3) App.DEFAULTS))
      (c_duty (App.consts (with_cap false tc3) App.DEFAULTS)) = true /\
  eqb (c_duty (App.consts (with_cap true tc1) App.DEFAULTS))
      (c_duty (App.consts (with_cap false tc1) App.DEFAULTS)) = true.
Proof.
  assert (c_dutyRaw (App.consts (with_cap false tc3) (App.cfg_or_default None))
          <> NaN) as R3 by (vm_compute; discriminate).
  assert (c_dutyCapCents (App.consts (with_cap false tc3)
                            (App.cfg_or_default None)) <> NaN) as C3
    by (vm_compute; discriminate).
  assert (c_dutyRaw (App.consts (with_cap false tc1) (App.cfg_or_default None))
          <> NaN) as R1 by (vm_compute; discriminate).
  assert (c_dutyCapCents (App.consts (with_cap false tc1)
                            (App.cfg_or_default None)) <> NaN) as C1
    by (vm_compute; discriminate).
  destruct (cap_never_raises_duty tc3 None R3 C3) as [H3 _].
  destruct (cap_never_raises_duty tc1 None R1 C1) as [_ H1].
  split; [exact H3|]. apply H1. vm_compute; reflexivity.
Defined.

(** X12. A price of zero gives zero GST, zero dutiable value and zero duty
    under every configuration with finite rates, whatever the toggles
    and the axle count (the duty with the cap ticked, if the cap in
    cents is [>= 0]). *)
Theorem zero_price_zero_duty (input : CalcInput) (cfg : option Cfg.t) :
  let r := App.cfg_or_default cfg in
  let o := App.calculate input cfg in
  is_zero (priceExGst input) = true ->
  is_finite (Cfg.gstRate r) = true -> is_finite (Cfg.dutyRate r) = true ->
  is_zero (gst o) = true /\ is_zero (dutiable o) = true /\
  (applyDutyCap input = false \/ ge0 (App.toCents (Cfg.dutyCap r)) = true ->
   is_zero (duty o) = true).
Proof.
  expose_consts. unfold App.toCents.
  set (r := App.cfg_or_default cfg).
  intros Hp Hg Hd.
  destruct (priceExGst input) as [sp| | |]; try discriminate.
  change (S754_zero sp * of_Z 100)%num with (S754_zero (xorb sp false)).
  cbn [Math_round].
  set (g := if includeGstInDuty input
            then Math_round (S754_zero (xorb sp false) * Cfg.gstRate r)
            else of_Z 0).
  assert (exists sg, g = S754_zero sg) as [sg Eg].
  { unfold g. destruct (includeGstInDuty input); [|exists false; reflexivity].
    destruct (Cfg.gstRate r) as [s| | |s m e]; try discriminate;
      eexists; reflexivity. }
  rewrite Eg.
  assert (exists sd, (S754_zero (xorb sp false) + S754_zero sg)%num
                     = S754_zero sd) as [sd Ed]
    by (destruct sp, sg; eexists; reflexivity).
  rewrite Ed.
  assert (exists sr, Math_round (S754_zero sd * Cfg.dutyRate r)
                     = S754_zero sr) as [sr Er]
    by (destruct (Cfg.dutyRate r) as [s| | |s m e]; try discriminate;
        eexists; reflexivity).
  rewrite Er.
  split; [reflexivity|]. split; [reflexivity|].
  intros [Hc | Hc].
  - rewrite Hc. reflexivity.
  - destruct (applyDutyCap input); [|reflexivity].
    destruct (Math_round (Cfg.dutyCap r * of_Z 100)) as [s|[]| |[] m e];
      try discriminate; reflexivity.
Qed.

Lemma zero_price_zero_duty_witness :
  is_zero (gst (App.calculate tc8 None)) = true /\
  is_zero (dutiable (App.calculate tc8 None)) = true /\
  is_zero (duty (App.calculate tc8 None)) = true.
Proof.
  destruct (zero_price_zero_duty tc8 None eq_refl eq_refl eq_refl)
    as (H1 & H2 & H3).
  split; [exact H1|]. split; [exact H2|].
  apply H3. right. vm_compute; reflexivity.
Defined.

(** X13. Under the default configuration with the duty cap, a price
    [>= 0] and 1 to 9 axles, the subtotal lies between 57200 and 549210
    cents, the duty between 0 and 1200000 and the total, their exact
    sum, between 57200 and 1749210 cents. *)
Theorem default_total_bounds (input : CalcInput) (n : Z) :
  applyDutyCap input = true -> ge0 (priceExGst input) = true ->
  axles input = of_Z n -> 1 <= n <= 9 ->
  let c := App.consts input App.DEFAULTS in
  exists sub d : Z,
    to_Z (c_roadRegoSubtotal c) = Some sub /\
    to_Z (c_duty c) = Some d /\
    to_Z (c_totalOnRoad c) = Some (sub + d) /\
    (57200 * n <= sub <= 57200 * n + 34410) /\
    (0 <= d <= 1200000) /\
    (57200 <= sub + d <= 1749210).
Proof.
  intros Hcap Hp Ha Hn; cbv zeta.
  destruct (default_fees_exact input n Ha Hn)
    as (_ & _ & _ & _ & _ & _ & _ & Hsub & _).
  cbv zeta in Hsub.
  set (sub := 57200 * n
              + (if includeInsuranceLines input then 1459 else 0)
              + (if includeInsuranceLines input then 146 else 0)
              + (if includeInsuranceLines input then 160 else 0)
              + (if firstTimeLicensing input then 1045 else 0)
              + (if firstTimeLicensing input then 3200 else 0)
              + match inspectionType input with
                | none => 0 | initial => 28400 | reinspection => 17200
                end) in *.
  assert (57200 * n <= sub <= 57200 * n + 34410) as Bs.
  { unfold sub.
    destruct (includeInsuranceLines input), (firstTimeLicensing input),
      (inspectionType input); lia. }
  destruct (default_capped_duty input Hcap Hp) as (d & Bd & Hd & Hduty).
  exists sub, d.
  assert (2 ^ 53 = 9007199254740992) as E53 by reflexivity.
  split; [rewrite Hsub; apply to_Z_of_Z; lia|].
  split; [exact Hd|].
  split; [|lia].
  assert (c_totalOnRoad (App.consts input App.DEFAULTS)
          = (c_roadRegoSubtotal (App.consts input App.DEFAULTS)
             + c_duty (App.consts input App.DEFAULTS))%num) as ->
    by (expose_consts; reflexivity).
  rewrite Hsub.
  destruct Hduty as [E | E]; rewrite E in *.
  - rewrite add_of_Z by lia. apply to_Z_of_Z. lia.
  - assert (d = 0) as -> by (cbn in Hd; congruence).
    rewrite Z.add_0_r.
    destruct sub as [|S|S] eqn:ES; try lia.
    rewrite add_of_Z_zero by lia.
    apply to_Z_of_Z. lia.
Qed.

Lemma default_total_bounds_witness :
  exists sub d : Z,
    to_Z (c_totalOnRoad (App.consts tc_max App.DEFAULTS)) = Some (sub + d) /\
    57200 <= sub + d <= 1749210.
Proof.
  assert (1 <= 9 <= 9) as Hn by lia.
  destruct (default_total_bounds tc_max 9 eq_refl eq_refl eq_refl Hn)
    as (sub & d & _ & _ & Ht & _ & _ & Hb).
  exists sub, d. split; [exact Ht | exact Hb].
Defined.

(** Both bounds of the total are reached. *)
Example total_bounds_are_reached :
  to_Z (c_totalOnRoad (App.consts tc_max App.DEFAULTS)) = Some 1749210 /\
  to_Z (c_totalOnRoad
          (App.consts {| priceExGst := of_Z 0; axles := of_Z 1;
                         includeGstInDuty := true; applyDutyCap := true;
                         firstTimeLicensing := false;
                         includeInsuranceLines := false;
                         inspectionType := none |} App.DEFAULTS))
  = Some 57200.
Proof. vm_compute; split; reflexivity. Qed.

(** * Cents to dollars and back *)

Section RoundTrip.

(** Rounding a mantissa of at least 53 bits to 53 bits: the mantissa
    is the quotient by the dropped power of two, or one more. *)
Lemma binary_round_aux_long P e l :
  53 <= Zpos (digits2_pos P) ->
  -1000 <= Zpos (digits2_pos P) + e <= 900 ->
  let j := Zpos (digits2_pos P) - 53 in
  exists m' e',
    binary_round_aux prec emax false (Zpos P) e l = S754_finite false m' e' /\
    2 ^ 52 <= Zpos m' < 2 ^ 53 /\
    ((e' = e + j /\ Zpos P / 2 ^ j <= Zpos m' <= Zpos P / 2 ^ j + 1) \/
     (e' = e + j + 1 /\ Zpos m' = 2 ^ 52 /\ Zpos P / 2 ^ j = 2 ^ 53 - 1)).
Proof.
  intros HD He; cbv zeta.
  set (D := Zpos (digits2_pos P)) in *.
  set (j := D - 53).
  pose proof (digits2_pos_bounds P) as [Bl Bu]. fold D in Bl, Bu.
  assert (0 <= j) as Hj by (unfold j; lia).
  assert (2 ^ 52 <= Zpos P / 2 ^ j < 2 ^ 53) as Bq.
  { assert (0 < 2 ^ j) by (apply Z.pow_pos_nonneg; lia).
    split.
    - apply Z.div_le_lower_bound; [assumption|].
      rewrite <- Z.pow_add_r by lia.
      replace (j + 52) with (D - 1) by (unfold j; lia). exact Bl.
    - apply Z.div_lt_upper_bound; [assumption|].
      rewrite <- Z.pow_add_r by lia.
      replace (j + 53) with D by (unfold j; lia). exact Bu. }
  change (2 ^ 52) with 4503599627370496 in *.
  change (2 ^ 53) with 9007199254740992 in *.
  unfold binary_round_aux.
  unfold shr_fexp at 1. cbn [Zdigits2]. fold D.
  rewrite fexp_small by lia.
  replace (D + e - 53 - e) with j by (unfold j; lia).
  set (mrs := fst (shr (shr_record_of_loc (Zpos P) l) e j)).
  assert (shr (shr_record_of_loc (Zpos P) l) e j = (mrs, e + j)) as ->.
  { unfold mrs. destruct j as [|pj|pj] eqn:Ej; try lia; cbn [shr fst].
    - rewrite Z.add_0_r. reflexivity.
    - reflexivity. }
  assert (shr_m mrs = Zpos P / 2 ^ j) as Em.
  { unfold mrs. destruct j as [|pj|pj] eqn:Ej; try lia; cbn [shr fst].
    - rewrite Z.pow_0_r, Z.div_1_r. destruct l as [|[]]; reflexivity.
    - rewrite iter_shr_1_div; destruct l as [|[]]; cbn [shr_record_of_loc shr_m];
        try reflexivity; lia. }
  rewrite Em.
  pose proof (round_nearest_even_ge (Zpos P / 2 ^ j) (loc_of_shr_record mrs))
    as G1.
  pose proof (round_nearest_even_le (Zpos P / 2 ^ j) (loc_of_shr_record mrs))
    as G2.
  destruct (round_nearest_even (Zpos P / 2 ^ j) _) as [|m1|m1]; try lia.
  unfold shr_fexp. cbn [Zdigits2 shr_record_of_loc].
  destruct (Z_lt_le_dec (Zpos m1) 9007199254740992) as [S1|B1].
  - assert (Zpos (digits2_pos m1) = 53) as Dm
      by (apply digits2_pos_unique;
          change (2 ^ (53 - 1)) with 4503599627370496;
          change (2 ^ 53) with 9007199254740992; lia).
    rewrite Dm, fexp_small by (unfold j; lia).
    replace (53 + (e + j) - 53 - (e + j)) with 0 by lia. cbn [shr shr_m].
    assert ((e + j <=? emax - prec) = true) as ->
      by (apply Z.leb_le; unfold emax, prec, j; lia).
    exists m1, (e + j). split; [reflexivity|]. split; [lia|]. left. lia.
  - assert (Zpos m1 = 9007199254740992) as E1 by lia.
    assert (Zpos (digits2_pos m1) = 54) as Dm
      by (apply digits2_pos_unique;
          change (2 ^ (54 - 1)) with 9007199254740992;
          change (2 ^ 54) with 18014398509481984; lia).
    rewrite Dm, fexp_small by (unfold j; lia).
    replace (54 + (e + j) - 53 - (e + j)) with 1 by lia.
    injection E1 as ->.
    cbn [shr iter_pos shr_1 shr_m].
    assert ((e + j + 1 <=? emax - prec) = true) as ->
      by (apply Z.leb_le; unfold emax, prec, j; lia).
    eexists _, (e + j + 1). split; [reflexivity|].
    split; [split; vm_compute; congruence|]. right.
    split; [reflexivity|]. split; [reflexivity|]. lia.
Qed.


Lemma digits2_pos_53_54 q :
  2 ^ 52 <= Zpos q < 2 ^ 54 ->
  Zpos (digits2_pos q) = 53 \/ Zpos (digits2_pos q) = 54.
Proof.
  intros [L U].
  destruct (Z_lt_le_dec (Zpos q) (2 ^ 53)).
  - left. apply digits2_pos_unique. change (53 - 1) with 52. lia.
  - right. apply digits2_pos_unique. change (54 - 1) with 53. lia.
Qed.

Lemma digits2_pos_105_106 q :
  2 ^ 104 <= Zpos q < 2 ^ 106 ->
  Zpos (digits2_pos q) = 105 \/ Zpos (digits2_pos q) = 106.
Proof.
  intros [L U].
  destruct (Z_lt_le_dec (Zpos q) (2 ^ 105)).
  - left. apply digits2_pos_unique. change (105 - 1) with 104. lia.
  - right. apply digits2_pos_unique. change (106 - 1) with 105. lia.
Qed.

(** The quotient that [fromCents] rounds, for a whole number of cents. *)
Lemma fromCents_of_pos p :
  Zpos (digits2_pos p) <= 53 ->
  exists l,
    App.fromCents (of_Z (Zpos p)) =
    binary_round_aux prec emax false
      (Zpos p * 2 ^ (53 - Zpos (digits2_pos p)) * 2 ^ 53 / 7036874417766400)
      (Zpos (digits2_pos p) - 60) l.
Proof.
  intros HD.
  pose proof (digits2_pos_bounds p) as [Bl Bu].
  rewrite of_Z_pos
    by (apply Z.lt_le_trans with (1 := Bu), Z.pow_le_mono_r; lia).
  unfold App.fromCents, div. rewrite hundred_bits.
  unfold SFdiv, SFdiv_core_binary. cbn [xorb Zdigits2].
  rewrite norm53_digits by lia.
  change (Zpos (digits2_pos 7036874417766400)) with 53.
  replace (53 + (Zpos (digits2_pos p) - 53) - (53 + -46))
    with (Zpos (digits2_pos p) - 7) by lia.
  rewrite fexp_small by lia.
  replace (Zpos (digits2_pos p) - 53 - -46) with (Zpos (digits2_pos p) - 7)
    by lia.
  rewrite Z.min_l by lia.
  replace (Zpos (digits2_pos p) - 7 - (Zpos (digits2_pos p) - 7 - 53))
    with 53 by lia.
  rewrite Z.shiftl_mul_pow2, norm53_value by lia.
  set (N := Zpos p * 2 ^ (53 - Zpos (digits2_pos p)) * 2 ^ 53).
  assert (fst (Z.div_eucl N 7036874417766400) = N / 7036874417766400)
    as Hq by reflexivity.
  destruct (Z.div_eucl N 7036874417766400) as [q r]; cbn [fst] in Hq.
  subst q. eexists.
  replace (Zpos (digits2_pos p) - 7 - 53) with (Zpos (digits2_pos p) - 60)
    by lia.
  reflexivity.
Qed.

Lemma Math_round_finite m e n :
  e < 0 -> (Zpos m + 2 ^ (- e - 1)) / 2 ^ (- e) = n ->
  Math_round (S754_finite false m e) = of_Z n.
Proof.
  intros He <-. unfold Math_round.
  assert ((0 <=? e) = false) as -> by (apply Z.leb_gt; exact He).
  cbn [cond_Zopp].
  rewrite Z.shiftr_div_pow2, Z.shiftl_mul_pow2, Z.mul_1_l by lia.
  reflexivity.
Qed.

Lemma mul_hundred m e :
  (S754_finite false m e * of_Z 100)%num =
  binary_round_aux prec emax false (Zpos (m * 7036874417766400)) (e + -46)
    loc_Exact.
Proof. rewrite hundred_bits. reflexivity. Qed.

Ltac pow_consts :=
  repeat match goal with
    | H : context [2 ^ ?e] |- _ =>
        let v := eval vm_compute in (2 ^ e) in
        change (2 ^ e) with v in H
    | |- context [2 ^ ?e] =>
        let v := eval vm_compute in (2 ^ e) in
        change (2 ^ e) with v
    end.


Ltac use_long :=
  match goal with
  | |- context [binary_round_aux prec emax false (Zpos ?q) ?e ?l] =>
      pose proof (binary_round_aux_long q e l) as HL
  end.

Lemma toCents_fromCents_pos p :
  Zpos p < 2 ^ 40 ->
  App.toCents (App.fromCents (of_Z (Zpos p))) = of_Z (Zpos p).
Proof.
  intros H1.
  pose proof (digits2_pos_bounds p) as [Bl Bu].
  assert (Zpos (digits2_pos p) <= 40) as HD
    by (apply digits2_pos_le; lia).
  destruct (fromCents_of_pos p ltac:(lia)) as (l & ->).
  set (D := Zpos (digits2_pos p)) in *.
  assert (D = 1 \/ D = 2 \/ D = 3 \/ D = 4 \/ D = 5 \/ D = 6 \/ D = 7
          \/ D = 8 \/ D = 9 \/ D = 10 \/ D = 11 \/ D = 12 \/ D = 13
          \/ D = 14 \/ D = 15 \/ D = 16 \/ D = 17 \/ D = 18 \/ D = 19
          \/ D = 20 \/ D = 21 \/ D = 22 \/ D = 23 \/ D = 24 \/ D = 25
          \/ D = 26 \/ D = 27 \/ D = 28 \/ D = 29 \/ D = 30 \/ D = 31
          \/ D = 32 \/ D = 33 \/ D = 34 \/ D = 35 \/ D = 36 \/ D = 37
          \/ D = 38 \/ D = 39 \/ D = 40)
    as HDc by (unfold D in *; lia).
  clearbody D. clear HD H1.
  set (q := Zpos p * 2 ^ (53 - D) * 2 ^ 53 / 7036874417766400).
  assert (q = Zpos p * 2 ^ (53 - D) * 2 ^ 53 / 7036874417766400) as Eq
    by reflexivity.
  clearbody q.
  unfold App.toCents.
  repeat (destruct HDc as [HDc | HDc]); subst D.
  all: pow_consts.
  all: assert (4503599627370496 <= q < 18014398509481984) as Bq
         by (Z.div_mod_to_equations; lia).
  all: destruct q as [|q|q]; try lia.
  all: destruct (digits2_pos_53_54 q Bq) as [Dq | Dq].
  all: use_long; rewrite Dq in HL; cbv zeta in HL;
       destruct (HL ltac:(lia) ltac:(lia))
         as (m' & e' & -> & Bm & [[-> Hm] | (-> & Hm & Hov)]);
       clear HL; pow_consts.
  all: rewrite mul_hundred.
  all: pose proof (Pos2Z.inj_mul m' 7036874417766400) as EP;
       set (P := (m' * 7036874417766400)%positive) in *; clearbody P.
  all: assert (2 ^ 104 <= Zpos P < 2 ^ 106) as BP by (pow_consts; lia).
  all: destruct (digits2_pos_105_106 P BP) as [DP | DP].
  all: use_long; rewrite DP in HL; cbv zeta in HL;
       destruct (HL ltac:(lia) ltac:(lia))
         as (m2 & e2 & -> & Bm2 & [[-> Hm2] | (-> & Hm2 & Hov2)]);
       clear HL; pow_consts.
  all: apply Math_round_finite; [lia|].
  all: pow_consts.
  all: Z.div_mod_to_equations; lia.
Qed.


Lemma cents_round_trip k :
  0 <= k < 2 ^ 40 -> to_Z (App.toCents (App.fromCents (of_Z k))) = Some k.
Proof.
  intros [H0 H1].
  destruct k as [|p|p]; try lia; [vm_compute; reflexivity|].
  rewrite toCents_fromCents_pos by exact H1.
  apply to_Z_of_Z. split; [lia|].
  apply Z.lt_trans with (1 := H1). reflexivity.
Qed.

End RoundTrip.

(** X14. Converting a whole number of cents below 2^40 to dollars and back
    gives the same number of cents: [toCents (fromCents d) = d]. *)
Theorem toCents_fromCents (d : Z) :
  0 <= d < 2 ^ 40 -> App.toCents (App.fromCents (of_Z d)) = of_Z d.
Proof.
  intros [H0 H1].
  destruct d as [|p|p]; try lia; [vm_compute; reflexivity|].
  apply toCents_fromCents_pos, H1.
Qed.

Lemma toCents_fromCents_witness :
  App.toCents (App.fromCents (of_Z 1749210)) = of_Z 1749210.
Proof.
  apply (toCents_fromCents 1749210). split; [lia | reflexivity].
Defined.

(** X15. Under the default configuration with the duty cap, a price
    [>= 0] and 1 to 9 axles, every fee, the duty, the subtotal and the total
    that [calculate] returns is a whole number of cents when converted
    back with [toCents]; the subtotal is the sum of the seven fee lines
    and the total the sum of the subtotal and the duty, to the cent. *)
Theorem returned_amounts_add_up (input : CalcInput) (n : Z) :
  applyDutyCap input = true -> ge0 (priceExGst input) = true ->
  axles input = of_Z n -> 1 <= n <= 9 ->
  let o := App.calculate input None in
  let cents x := to_Z (App.toCents x) in
  exists l ib ig idu rf pf insp d : Z,
    cents (licenceFee o) = Some l /\
    cents (insuranceBase o) = Some ib /\
    cents (insuranceGst o) = Some ig /\
    cents (insuranceDuty o) = Some idu /\
    cents (recordingFee o) = Some rf /\
    cents (plateFee o) = Some pf /\
    cents (inspectionFee o) = Some insp /\
    cents (duty o) = Some d /\
    cents (roadRegoSubtotal o) = Some (l + ib + ig + idu + rf + pf + insp) /\
    cents (totalOnRoad o)
    = Some (l + ib + ig + idu + rf + pf + insp + d).
Proof.
  intros Hcap Hp Ha Hn; cbv zeta.
  unfold App.calculate, App.cfg_or_default.
  cbn [gst dutiable duty licenceFee insuranceBase insuranceGst
       insuranceDuty recordingFee plateFee inspectionFee roadRegoSubtotal
       totalOnRoad].
  destruct (default_fees_exact input n Ha Hn)
    as (Hl & Hib & Hig & Hidu & Hrf & Hpf & Hinsp & Hsub & Bsub).
  cbv zeta in Hl, Hib, Hig, Hidu, Hrf, Hpf, Hinsp, Hsub, Bsub.
  destruct (default_capped_duty input Hcap Hp) as (d & Bd & Hd & Hduty).
  assert (c_totalOnRoad (App.consts input App.DEFAULTS)
          = (c_roadRegoSubtotal (App.consts input App.DEFAULTS)
             + c_duty (App.consts input App.DEFAULTS))%num) as Ht
    by (expose_consts; reflexivity).
  rewrite Ht, Hl, Hib, Hig, Hidu, Hrf, Hpf, Hinsp, Hsub.
  assert (2 ^ 40 = 1099511627776) as E40 by reflexivity.
  do 7 eexists. exists d.
  repeat (split; [apply cents_round_trip;
                  destruct (includeInsuranceLines input),
                    (firstTimeLicensing input), (inspectionType input);
                  lia|]).
  destruct Hduty as [E | E]; rewrite E in *.
  - split; [apply cents_round_trip; lia|].
    split; [apply cents_round_trip; lia|].
    rewrite add_of_Z by (change (2 ^ 53) with 9007199254740992; lia).
    apply cents_round_trip. lia.
  - assert (d = 0) as -> by (cbn in Hd; congruence).
    split; [vm_compute; reflexivity|].
    split; [apply cents_round_trip; lia|].
    rewrite Z.add_0_r.
    match goal with
    | |- context [of_Z ?s] => destruct s as [|S|S] eqn:ES; try lia
    end.
    rewrite add_of_Z_zero by lia.
    apply cents_round_trip. lia.
Qed.

Lemma returned_amounts_add_up_witness :
  exists l ib ig idu rf pf insp d : Z,
    to_Z (App.toCents (roadRegoSubtotal (App.calculate tc_max None)))
    = Some (l + ib + ig + idu + rf + pf + insp) /\
    to_Z (App.toCents (totalOnRoad (App.calculate tc_max None)))
    = Some (l + ib + ig + idu + rf + pf + insp + d).
Proof.
  assert (1 <= 9 <= 9) as Hn by lia.
  destruct (returned_amounts_add_up tc_max 9 eq_refl eq_refl eq_refl Hn)
    as (l & ib & ig & idu & rf & pf & insp & d & H).
  exists l, ib, ig, idu, rf, pf, insp, d.
  split; apply H.
Defined.
